(** * Duplex voice-assistant client: session controller of [App.tsx]

    A shallow embedding of the React component [App] of [src/App.tsx]
    (state hooks, refs, [addMessage], [handleMessage], [startSession],
    [stopSession] and the session callbacks) together with the declarations
    of [src/types.ts], followed by the properties of the playback scheduler,
    the interruption handler and the connection state machine.

    Conventions of the embedding.
    - A JavaScript number that measures time (the playback cursor, the output
      clock, a buffer duration) is an exact rational [Q]; rounding of binary64
      arithmetic is not modelled.
    - A JavaScript string is the list of its UTF-16 code units.
    - A browser object (audio context, source node, media stream, session) is
      a reference [ObjRef]; a fresh object is allocated from a counter.
    - [handleMessage] runs to completion. [startSession] suspends once, at
      [await getUserMedia]: [startSessionBegin] is the part before the
      suspension and [startSessionResume] the part after it;
      [startSession] is the call that no other handler interrupts, which
      is what the event [StartSession] stands for, and
      [startSessionAround] is the call with events handled during the
      suspension. A handler reads a [useState] cell at its current value,
      as when a render separates two events.
    - Calls into the browser are recorded as a list of [Effect]s, separate
      from the component state; exceptions are explicit ([Throw]). *)

From Stdlib Require Import List String ZArith NArith PArith QArith Qminmax Lqa Lia Bool.
Import ListNotations.

Set Implicit Arguments.

(** ** JavaScript strings *)

Definition JSString := list N.

(** Truthiness of a string: the empty string is the only falsy one. *)
Definition truthy (s : JSString) : bool :=
  match s with [] => false | _ :: _ => true end.

(** ECMAScript [WhiteSpace] and [LineTerminator] code units, the ones
    [String.prototype.trim] strips. *)
Definition isWhiteSpace (c : N) : bool :=
  match c with
  | 9%N | 10%N | 11%N | 12%N | 13%N | 32%N | 160%N | 5760%N
  | 8232%N | 8233%N | 8239%N | 8287%N | 12288%N | 65279%N => true
  | _ => (8192 <=? c)%N && (c <=? 8202)%N
  end.

Fixpoint trimStart (s : JSString) : JSString :=
  match s with
  | [] => []
  | c :: r => if isWhiteSpace c then trimStart r else s
  end.

Definition trimEnd (s : JSString) : JSString := rev (trimStart (rev s)).

Definition trim (s : JSString) : JSString := trimEnd (trimStart s).

(** A text is blank when it is empty or made of white space only. *)
Definition blank (s : JSString) : bool := forallb isWhiteSpace s.

(** ** [types.ts] *)

Module Types.

Inductive Role : Type := user | model.

Record Message : Type := {
  id : JSString;
  role : Role;
  text : JSString;
  timestamp : Z
}.

Inductive ConnectionStatus : Type :=
| DISCONNECTED
| CONNECTING
| CONNECTED
| ERROR.

Definition ConnectionStatus_eqb (a b : ConnectionStatus) : bool :=
  match a, b with
  | DISCONNECTED, DISCONNECTED | CONNECTING, CONNECTING
  | CONNECTED, CONNECTED | ERROR, ERROR => true
  | _, _ => false
  end.

End Types.
Export Types.

(** ** Browser objects *)

Definition ObjRef := nat.

(** An [AudioBuffer] of the Web Audio API: [duration] is the number of sample
    frames over the sample rate. *)
Module AudioBuffer.
Record t : Type := { length : N; sampleRate : positive }.
Definition duration (b : t) : Q := Z.of_N (length b) # sampleRate b.
End AudioBuffer.

(** The types of [@google/genai] that [handleMessage] reads. Every field is
    optional, as the package declares them. *)
Module Genai.

Record Transcription : Type := { text : option JSString }.

Record Blob : Type := { data : option JSString }.

Record Part : Type := { inlineData : option Blob }.

Record Content : Type := { parts : option (list Part) }.

End Genai.

(** The fields of [message.serverContent] that [handleMessage] reads; a
    message without [serverContent] is the one with every field absent. *)
Record LiveServerMessage : Type := {
  outputTranscription : option Genai.Transcription;
  inputTranscription : option Genai.Transcription;
  turnComplete : bool;
  modelTurn : option Genai.Content;
  interrupted : bool
}.

(** The string an absent value becomes under [+]: ["undefined"]. *)
Definition undefinedText : JSString :=
  [117%N; 110%N; 100%N; 101%N; 102%N; 105%N; 110%N; 101%N; 100%N].

(** [prev + transcription.text] appends [textOf transcription]. *)
Definition textOf (t : Genai.Transcription) : JSString :=
  match Genai.text t with
  | Some fragment => fragment
  | None => undefinedText
  end.

(** ** Component state: the [useState] cells and the [useRef] cells *)

Record State : Type := {
  status : ConnectionStatus;
  messages : list Message;
  currentInputText : JSString;
  currentOutputText : JSString;
  audioContextRef : option ObjRef;
  outAudioContextRef : option ObjRef;
  nextStartTimeRef : Q;
  activeSourcesRef : list ObjRef;
  sessionPromiseRef : option ObjRef;
  micStreamRef : option ObjRef;
  scriptProcessorRef : option ObjRef;
  nextObject : ObjRef
}.

(** [useState(DISCONNECTED)], [useState([])], [useState('')] twice, and the
    initial values of the seven refs. *)
Definition initialState : State := {|
  status := DISCONNECTED;
  messages := [];
  currentInputText := [];
  currentOutputText := [];
  audioContextRef := None;
  outAudioContextRef := None;
  nextStartTimeRef := 0;
  activeSourcesRef := [];
  sessionPromiseRef := None;
  micStreamRef := None;
  scriptProcessorRef := None;
  nextObject := O
|}.

Definition with_status (v : ConnectionStatus) (s : State) : State :=
  {| status := v; messages := messages s;
     currentInputText := currentInputText s;
     currentOutputText := currentOutputText s;
     audioContextRef := audioContextRef s;
     outAudioContextRef := outAudioContextRef s;
     nextStartTimeRef := nextStartTimeRef s;
     activeSourcesRef := activeSourcesRef s;
     sessionPromiseRef := sessionPromiseRef s;
     micStreamRef := micStreamRef s;
     scriptProcessorRef := scriptProcessorRef s;
     nextObject := nextObject s |}.

Definition with_messages (v : list Message) (s : State) : State :=
  {| status := status s; messages := v;
     currentInputText := currentInputText s;
     currentOutputText := currentOutputText s;
     audioContextRef := audioContextRef s;
     outAudioContextRef := outAudioContextRef s;
     nextStartTimeRef := nextStartTimeRef s;
     activeSourcesRef := activeSourcesRef s;
     sessionPromiseRef := sessionPromiseRef s;
     micStreamRef := micStreamRef s;
     scriptProcessorRef := scriptProcessorRef s;
     nextObject := nextObject s |}.

Definition with_currentInputText (v : JSString) (s : State) : State :=
  {| status := status s; messages := messages s;
     currentInputText := v;
     currentOutputText := currentOutputText s;
     audioContextRef := audioContextRef s;
     outAudioContextRef := outAudioContextRef s;
     nextStartTimeRef := nextStartTimeRef s;
     activeSourcesRef := activeSourcesRef s;
     sessionPromiseRef := sessionPromiseRef s;
     micStreamRef := micStreamRef s;
     scriptProcessorRef := scriptProcessorRef s;
     nextObject := nextObject s |}.

Definition with_currentOutputText (v : JSString) (s : State) : State :=
  {| status := status s; messages := messages s;
     currentInputText := currentInputText s;
     currentOutputText := v;
     audioContextRef := audioContextRef s;
     outAudioContextRef := outAudioContextRef s;
     nextStartTimeRef := nextStartTimeRef s;
     activeSourcesRef := activeSourcesRef s;
     sessionPromiseRef := sessionPromiseRef s;
     micStreamRef := micStreamRef s;
     scriptProcessorRef := scriptProcessorRef s;
     nextObject := nextObject s |}.

Definition with_audioContextRef (v : option ObjRef) (s : State) : State :=
  {| status := status s; messages := messages s;
     currentInputText := currentInputText s;
     currentOutputText := currentOutputText s;
     audioContextRef := v;
     outAudioContextRef := outAudioContextRef s;
     nextStartTimeRef := nextStartTimeRef s;
     activeSourcesRef := activeSourcesRef s;
     sessionPromiseRef := sessionPromiseRef s;
     micStreamRef := micStreamRef s;
     scriptProcessorRef := scriptProcessorRef s;
     nextObject := nextObject s |}.

Definition with_outAudioContextRef (v : option ObjRef) (s : State) : State :=
  {| status := status s; messages := messages s;
     currentInputText := currentInputText s;
     currentOutputText := currentOutputText s;
     audioContextRef := audioContextRef s;
     outAudioContextRef := v;
     nextStartTimeRef := nextStartTimeRef s;
     activeSourcesRef := activeSourcesRef s;
     sessionPromiseRef := sessionPromiseRef s;
     micStreamRef := micStreamRef s;
     scriptProcessorRef := scriptProcessorRef s;
     nextObject := nextObject s |}.

Definition with_nextStartTimeRef (v : Q) (s : State) : State :=
  {| status := status s; messages := messages s;
     currentInputText := currentInputText s;
     currentOutputText := currentOutputText s;
     audioContextRef := audioContextRef s;
     outAudioContextRef := outAudioContextRef s;
     nextStartTimeRef := v;
     activeSourcesRef := activeSourcesRef s;
     sessionPromiseRef := sessionPromiseRef s;
     micStreamRef := micStreamRef s;
     scriptProcessorRef := scriptProcessorRef s;
     nextObject := nextObject s |}.

Definition with_activeSourcesRef (v : list ObjRef) (s : State) : State :=
  {| status := status s; messages := messages s;
     currentInputText := currentInputText s;
     currentOutputText := currentOutputText s;
     audioContextRef := audioContextRef s;
     outAudioContextRef := outAudioContextRef s;
     nextStartTimeRef := nextStartTimeRef s;
     activeSourcesRef := v;
     sessionPromiseRef := sessionPromiseRef s;
     micStreamRef := micStreamRef s;
     scriptProcessorRef := scriptProcessorRef s;
     nextObject := nextObject s |}.

Definition with_sessionPromiseRef (v : option ObjRef) (s : State) : State :=
  {| status := status s; messages := messages s;
     currentInputText := currentInputText s;
     currentOutputText := currentOutputText s;
     audioContextRef := audioContextRef s;
     outAudioContextRef := outAudioContextRef s;
     nextStartTimeRef := nextStartTimeRef s;
     activeSourcesRef := activeSourcesRef s;
     sessionPromiseRef := v;
     micStreamRef := micStreamRef s;
     scriptProcessorRef := scriptProcessorRef s;
     nextObject := nextObject s |}.

Definition with_micStreamRef (v : option ObjRef) (s : State) : State :=
  {| status := status s; messages := messages s;
     currentInputText := currentInputText s;
     currentOutputText := currentOutputText s;
     audioContextRef := audioContextRef s;
     outAudioContextRef := outAudioContextRef s;
     nextStartTimeRef := nextStartTimeRef s;
     activeSourcesRef := activeSourcesRef s;
     sessionPromiseRef := sessionPromiseRef s;
     micStreamRef := v;
     scriptProcessorRef := scriptProcessorRef s;
     nextObject := nextObject s |}.

Definition with_scriptProcessorRef (v : option ObjRef) (s : State) : State :=
  {| status := status s; messages := messages s;
     currentInputText := currentInputText s;
     currentOutputText := currentOutputText s;
     audioContextRef := audioContextRef s;
     outAudioContextRef := outAudioContextRef s;
     nextStartTimeRef := nextStartTimeRef s;
     activeSourcesRef := activeSourcesRef s;
     sessionPromiseRef := sessionPromiseRef s;
     micStreamRef := micStreamRef s;
     scriptProcessorRef := v;
     nextObject := nextObject s |}.

Definition with_nextObject (v : ObjRef) (s : State) : State :=
  {| status := status s; messages := messages s;
     currentInputText := currentInputText s;
     currentOutputText := currentOutputText s;
     audioContextRef := audioContextRef s;
     outAudioContextRef := outAudioContextRef s;
     nextStartTimeRef := nextStartTimeRef s;
     activeSourcesRef := activeSourcesRef s;
     sessionPromiseRef := sessionPromiseRef s;
     micStreamRef := micStreamRef s;
     scriptProcessorRef := scriptProcessorRef s;
     nextObject := v |}.

(** ** Browser calls and exceptions *)

Inductive Effect : Type :=
| ConsoleError (label : string)
| NewAudioContext (ctx : ObjRef) (rate : positive)
| GetUserMedia
| LiveConnect (session : ObjRef)
| CreateScriptProcessor (node : ObjRef) (ctx : ObjRef)
| CreateBufferSource (source : ObjRef) (ctx : ObjRef)
| SourceStart (source : ObjRef) (when : Q)
| SourceStop (source : ObjRef)
| TracksStop (stream : ObjRef)
| ProcessorDisconnect (node : ObjRef)
| ContextClose (ctx : ObjRef).

Inductive Exn : Type :=
| ApiKeyNotFound
| AcquisitionError
| DecodeError
| InvalidStateError
| TypeError.

Inductive Result (A : Type) : Type :=
| Ok (a : A)
| Throw (e : Exn).
Arguments Ok {A} a.
Arguments Throw {A} e.

(** [message.serverContent?.modelTurn?.parts[0]?.inlineData?.data]: an absent
    [modelTurn] short-circuits the chain; a [modelTurn] without [parts]
    raises, since [parts[0]] is read without [?.]. *)
Definition readBase64Audio (message : LiveServerMessage)
    : Result (option JSString) :=
  match modelTurn message with
  | None => Ok None
  | Some content =>
      match Genai.parts content with
      | None => Throw TypeError
      | Some [] => Ok None
      | Some (part :: _) =>
          match Genai.inlineData part with
          | None => Ok None
          | Some blob => Ok (Genai.data blob)
          end
      end
  end.

(** The message has a [modelTurn] without [parts]. *)
Definition malformed (message : LiveServerMessage) : bool :=
  match modelTurn message with
  | Some content =>
      match Genai.parts content with None => true | Some _ => false end
  | None => false
  end.

(** ** The monad of handlers: state, calls into the browser, exceptions.
    What was written and called before a [Throw] stays written and called. *)

Record Outcome (A : Type) : Type := {
  effects : list Effect;
  final : State;
  result : Result A
}.

Definition Comp (A : Type) : Type := State -> Outcome A.

Definition ret {A} (a : A) : Comp A :=
  fun s => {| effects := []; final := s; result := Ok a |}.

Definition bind {A B} (m : Comp A) (f : A -> Comp B) : Comp B :=
  fun s =>
    match m s with
    | {| effects := e1; final := s1; result := Ok a |} =>
        match f a s1 with
        | {| effects := e2; final := s2; result := r |} =>
            {| effects := e1 ++ e2; final := s2; result := r |}
        end
    | {| effects := e1; final := s1; result := Throw e |} =>
        {| effects := e1; final := s1; result := Throw e |}
    end.

Definition throw {A} (e : Exn) : Comp A :=
  fun s => {| effects := []; final := s; result := Throw e |}.

(** [try { m } catch (err) { h err }] *)
Definition try_catch {A} (m : Comp A) (h : Exn -> Comp A) : Comp A :=
  fun s =>
    match m s with
    | {| effects := e1; final := s1; result := Ok a |} =>
        {| effects := e1; final := s1; result := Ok a |}
    | {| effects := e1; final := s1; result := Throw e |} =>
        match h e s1 with
        | {| effects := e2; final := s2; result := r |} =>
            {| effects := e1 ++ e2; final := s2; result := r |}
        end
    end.

Definition get : Comp State :=
  fun s => {| effects := []; final := s; result := Ok s |}.

Definition modify (f : State -> State) : Comp unit :=
  fun s => {| effects := []; final := f s; result := Ok tt |}.

Definition emit (e : Effect) : Comp unit :=
  fun s => {| effects := [e]; final := s; result := Ok tt |}.

(** A fresh browser object. *)
Definition alloc : Comp ObjRef :=
  fun s => {| effects := []; final := with_nextObject (S (nextObject s)) s;
              result := Ok (nextObject s) |}.

Declare Scope comp_scope.
Delimit Scope comp_scope with comp.
Notation "x <- m ;; k" := (bind m (fun x => k))
  (at level 100, m at next level, right associativity) : comp_scope.
Notation "m ;; k" := (bind m (fun _ => k))
  (at level 100, right associativity) : comp_scope.
Open Scope comp_scope.

Definition liftResult {A} (r : Result A) : Comp A :=
  match r with Ok a => ret a | Throw e => throw e end.

Definition when (b : bool) (m : Comp unit) : Comp unit :=
  if b then m else ret tt.

(** [xs.forEach(f)] *)
Fixpoint forEach {A} (xs : list A) (f : A -> Comp unit) : Comp unit :=
  match xs with
  | [] => ret tt
  | x :: r => f x ;; forEach r f
  end.

(** ** A JavaScript [Set] of objects, in insertion order *)

Definition set_has (x : ObjRef) (l : list ObjRef) : bool :=
  existsb (Nat.eqb x) l.

Definition set_add (x : ObjRef) (l : list ObjRef) : list ObjRef :=
  if set_has x l then l else l ++ [x].

Definition set_delete (x : ObjRef) (l : list ObjRef) : list ObjRef :=
  filter (fun y => negb (Nat.eqb x y)) l.

(** ** The component [App] *)

(** What a call of [startSession] finds in its environment:
    [process.env.API_KEY], and whether [getUserMedia] resolves with a
    stream or rejects. *)
Record StartEnv : Type := {
  API_KEY : option JSString;
  micGranted : bool
}.

Module App.

Section Browser.

(** [audio-utils]: [decode] (base64 to bytes) and [decodeAudioData] (bytes
    to an [AudioBuffer] at the given rate and channel count); [None] stands
    for a raised exception. *)
Variable decode : JSString -> option (list N).
Variable decodeAudioData :
  list N -> ObjRef -> positive -> positive -> option AudioBuffer.t.

(** Whether the browser raises when [stop()] is called on a source node. *)
Variable stopRaises : ObjRef -> bool.

Definition orThrow {A} (o : option A) (e : Exn) : Comp A :=
  match o with Some a => ret a | None => throw e end.

Definition sourceStop (source : ObjRef) : Comp unit :=
  emit (SourceStop source) ;;
  if stopRaises source then throw InvalidStateError else ret tt.

(** [addMessage(role, text)]; [rnd] is the identifier drawn from
    [Math.random()] and [now] the reading of [Date.now()]. *)
Definition addMessage (rnd : JSString) (now : Z) (role : Role)
    (text : JSString) : Comp unit :=
  if negb (truthy (trim text)) then ret tt
  else
    modify (fun s =>
      with_messages
        (messages s ++
           [ {| id := rnd; role := role; text := text; timestamp := now |} ])
        s).

(** [// 1. Handle Transcription] *)
Definition handleTranscription (message : LiveServerMessage) : Comp unit :=
  match outputTranscription message with
  | Some t =>
      modify (fun s =>
        with_currentOutputText (currentOutputText s ++ textOf t) s)
  | None =>
      match inputTranscription message with
      | Some t =>
          modify (fun s =>
            with_currentInputText (currentInputText s ++ textOf t) s)
      | None => ret tt
      end
  end.

(** The [turnComplete] branch: [setMessages(prev => [...prev])]. *)
Definition handleTurnComplete (message : LiveServerMessage) : Comp unit :=
  when (turnComplete message)
    (modify (fun s => with_messages (messages s) s)).

(** [// 2. Handle Audio Output]; [clockNow] is the reading of
    [ctx.currentTime]. *)
Definition handleAudioOutput (clockNow : Q) (message : LiveServerMessage)
    : Comp unit :=
  payload <- liftResult (readBase64Audio message) ;;
  s <- get ;;
  match payload, outAudioContextRef s with
  | Some base64Audio, Some ctx =>
      if truthy base64Audio then
        modify (fun s =>
          with_nextStartTimeRef (Qmax (nextStartTimeRef s) clockNow) s) ;;
        try_catch
          (bytes <- orThrow (decode base64Audio) DecodeError ;;
           audioBuffer <-
             orThrow (decodeAudioData bytes ctx 24000%positive 1%positive)
               DecodeError ;;
           source <- alloc ;;
           emit (CreateBufferSource source ctx) ;;
           s1 <- get ;;
           emit (SourceStart source (nextStartTimeRef s1)) ;;
           modify (fun s =>
             with_nextStartTimeRef
               (nextStartTimeRef s + AudioBuffer.duration audioBuffer) s) ;;
           modify (fun s =>
             with_activeSourcesRef (set_add source (activeSourcesRef s)) s))
          (fun _ => emit (ConsoleError "Error playing audio chunk:"))
      else ret tt
  | _, _ => ret tt
  end.

(** [// 3. Handle Interruptions] *)
Definition handleInterruptions (message : LiveServerMessage) : Comp unit :=
  when (interrupted message)
    (s <- get ;;
     forEach (activeSourcesRef s)
       (fun source => try_catch (sourceStop source) (fun _ => ret tt)) ;;
     modify (with_activeSourcesRef []) ;;
     modify (with_nextStartTimeRef 0)).

Definition handleMessage (clockNow : Q) (message : LiveServerMessage)
    : Comp unit :=
  handleTranscription message ;;
  handleTurnComplete message ;;
  handleAudioOutput clockNow message ;;
  handleInterruptions message.

(** The [catch] block of [startSession]. *)
Definition startSessionCatch (_ : Exn) : Comp unit :=
  emit (ConsoleError "Failed to start session:") ;;
  modify (with_status ERROR).

(** [startSession] up to [await getUserMedia]; the value tells whether the
    call is suspended there. *)
Definition startSessionBegin (env : StartEnv) : Comp bool :=
  s <- get ;;
  if negb (ConnectionStatus_eqb (status s) DISCONNECTED) then ret false
  else
    modify (with_status CONNECTING) ;;
    try_catch
      (match API_KEY env with
       | Some k => if truthy k then ret tt else throw ApiKeyNotFound
       | None => throw ApiKeyNotFound
       end ;;
       a <- alloc ;;
       emit (NewAudioContext a 16000%positive) ;;
       modify (with_audioContextRef (Some a)) ;;
       b <- alloc ;;
       emit (NewAudioContext b 24000%positive) ;;
       modify (with_outAudioContextRef (Some b)) ;;
       emit GetUserMedia ;;
       ret true)
      (fun e => startSessionCatch e ;; ret false).

(** [startSession] from the moment [getUserMedia] settles: the rest of the
    [try] block, under the same [catch]. Nothing is read again: the status
    is not tested a second time. *)
Definition startSessionResume (env : StartEnv) : Comp unit :=
  try_catch
    (stream <- (if micGranted env then alloc else throw AcquisitionError) ;;
     modify (with_micStreamRef (Some stream)) ;;
     session <- alloc ;;
     emit (LiveConnect session) ;;
     modify (with_sessionPromiseRef (Some session)))
    startSessionCatch.

(** A call of [startSession] that no other handler interrupts. *)
Definition startSession (env : StartEnv) : Comp unit :=
  suspended <- startSessionBegin env ;;
  if suspended then startSessionResume env else ret tt.

Definition stopSession : Comp unit :=
  modify (with_status DISCONNECTED) ;;
  s <- get ;;
  match micStreamRef s with
  | Some stream => emit (TracksStop stream) ;; modify (with_micStreamRef None)
  | None => ret tt
  end ;;
  s <- get ;;
  match scriptProcessorRef s with
  | Some node =>
      emit (ProcessorDisconnect node) ;; modify (with_scriptProcessorRef None)
  | None => ret tt
  end ;;
  s <- get ;;
  match audioContextRef s with
  | Some ctx => emit (ContextClose ctx) ;; modify (with_audioContextRef None)
  | None => ret tt
  end ;;
  s <- get ;;
  match outAudioContextRef s with
  | Some ctx => emit (ContextClose ctx) ;; modify (with_outAudioContextRef None)
  | None => ret tt
  end ;;
  modify (with_sessionPromiseRef None) ;;
  modify (with_currentInputText []) ;;
  modify (with_currentOutputText []).

(** The callbacks given to [ai.live.connect]. *)
Definition onopen : Comp unit :=
  modify (with_status CONNECTED) ;;
  s <- get ;;
  match audioContextRef s with
  | None => throw TypeError
  | Some ctx =>
      _ <- alloc ;;
      node <- alloc ;;
      emit (CreateScriptProcessor node ctx) ;;
      modify (with_scriptProcessorRef (Some node))
  end.

Definition onerror : Comp unit :=
  emit (ConsoleError "Live API Error:") ;;
  modify (with_status ERROR).

Definition onclose : Comp unit := stopSession.

(** The ['ended'] listener of a scheduled source. *)
Definition onended (source : ObjRef) : Comp unit :=
  modify (fun s =>
    with_activeSourcesRef (set_delete source (activeSourcesRef s)) s).

(** ** The event loop: everything that can run on the component.
    [addMessage] has no caller in [App.tsx]; its event stands for a call. *)

Inductive Event : Type :=
| AddMessage (rnd : JSString) (now : Z) (role : Role) (text : JSString)
| StartSession (env : StartEnv)
| StopSession
| OnOpen
| OnMessage (clockNow : Q) (message : LiveServerMessage)
| OnError
| OnClose
| OnEnded (source : ObjRef).

Definition step (e : Event) : Comp unit :=
  match e with
  | AddMessage rnd now role text => addMessage rnd now role text
  | StartSession env => startSession env
  | StopSession => stopSession
  | OnOpen => onopen
  | OnMessage clockNow message => handleMessage clockNow message
  | OnError => onerror
  | OnClose => onclose
  | OnEnded source => onended source
  end.

(** An exception that escapes a handler is reported by the browser and the
    loop goes on with the next event. *)
Definition dispatch (e : Event) : Comp unit :=
  try_catch (step e) (fun _ => emit (ConsoleError "Uncaught")).

Definition run (es : list Event) : Comp unit := forEach es dispatch.

(** A call of [startSession] with the events [between] handled while it is
    suspended at [await getUserMedia]; a call that is not suspended has
    returned before they are handled. *)
Definition startSessionAround (env : StartEnv) (between : list Event)
    : Comp unit :=
  suspended <- startSessionBegin env ;;
  run between ;;
  if suspended then startSessionResume env else ret tt.

End Browser.

End App.
Import App.

(** ** Auxiliary definitions used by the statements *)

(** The times passed to [source.start], in call order. *)
Fixpoint startTimes (l : list Effect) : list Q :=
  match l with
  | [] => []
  | SourceStart _ t :: r => t :: startTimes r
  | _ :: r => startTimes r
  end.

(** The sources on which [stop()] was called, in call order. *)
Fixpoint stopped (l : list Effect) : list ObjRef :=
  match l with
  | [] => []
  | SourceStop x :: r => x :: stopped r
  | _ :: r => stopped r
  end.

(** Calls that open a remote session, acquire the microphone or create an
    audio context. *)
Definition acquires (e : Effect) : bool :=
  match e with
  | NewAudioContext _ _ | GetUserMedia | LiveConnect _ => true
  | _ => false
  end.

Definition opensSession (e : Effect) : bool :=
  match e with LiveConnect _ => true | _ => false end.

(** The state once the transcription and turn-complete branches have run. *)
Definition afterTranscripts (message : LiveServerMessage) (s : State) : State :=
  final ((handleTranscription message ;; handleTurnComplete message) s).

Module Payload.

Section Decoding.

Variable decode : JSString -> option (list N).
Variable decodeAudioData :
  list N -> ObjRef -> positive -> positive -> option AudioBuffer.t.

(** The buffer [handleMessage] obtains from a payload, if any. *)
Definition decoded (ctx : ObjRef) (base64Audio : JSString)
    : option AudioBuffer.t :=
  match decode base64Audio with
  | Some bytes => decodeAudioData bytes ctx 24000%positive 1%positive
  | None => None
  end.

(** What the audio branch finds in a message: nothing to play ([None]), a
    payload that fails to decode ([Some (ctx, None)]) or a decoded buffer. *)
Definition chunk (message : LiveServerMessage) (s : State)
    : option (ObjRef * option AudioBuffer.t) :=
  match readBase64Audio message, outAudioContextRef s with
  | Ok (Some base64Audio), Some ctx =>
      if truthy base64Audio then Some (ctx, decoded ctx base64Audio)
      else None
  | _, _ => None
  end.

(** The message carries a payload that decodes to [audioBuffer]. *)
Definition carries (ctx : ObjRef) (message : LiveServerMessage)
    (audioBuffer : AudioBuffer.t) : Prop :=
  exists base64Audio,
    readBase64Audio message = Ok (Some base64Audio) /\
    truthy base64Audio = true /\
    decoded ctx base64Audio = Some audioBuffer.

(** A schedule call: the clock reading at which a message arrives, the
    message, and the buffer its payload decodes to. *)
Record ScheduleCall : Type := {
  clock : Q;
  payload : LiveServerMessage;
  buffer : AudioBuffer.t
}.

Definition wellFormed (ctx : ObjRef) (c : ScheduleCall) : Prop :=
  carries ctx (payload c) (buffer c) /\ interrupted (payload c) = false.

End Decoding.

Definition callEvents (calls : list ScheduleCall) : list Event :=
  map (fun c => OnMessage (clock c) (payload c)) calls.

Fixpoint totalDuration (calls : list ScheduleCall) : Q :=
  match calls with
  | [] => 0
  | c :: r => AudioBuffer.duration (buffer c) + totalDuration r
  end.

(** The cursor recurrence of the audio branch, call after call. *)
Fixpoint cursorAfter (cursor : Q) (calls : list ScheduleCall) : Q :=
  match calls with
  | [] => cursor
  | c :: r =>
      cursorAfter (Qmax cursor (clock c) + AudioBuffer.duration (buffer c)) r
  end.

(** Every call arrives no later than the cursor it finds. *)
Fixpoint punctual (cursor : Q) (calls : list ScheduleCall) : Prop :=
  match calls with
  | [] => True
  | c :: r =>
      clock c <= cursor /\
      punctual (Qmax cursor (clock c) + AudioBuffer.duration (buffer c)) r
  end.

End Payload.
Import Payload.


(** A call begins a connection attempt when it creates an audio context,
    asks for the microphone or opens a session. *)
Definition beginsConnectionAttempt (o : Outcome unit) : Prop :=
  existsb acquires (effects o) = true.


Definition isStart (e : Event) : bool :=
  match e with StartSession _ => true | _ => false end.

(** A message that carries only an audio payload. *)
Definition audioMessage (base64Audio : JSString) : LiveServerMessage :=
  {| outputTranscription := None; inputTranscription := None;
     turnComplete := false;
     modelTurn :=
       Some {| Genai.parts :=
                 Some [ {| Genai.inlineData :=
                             Some {| Genai.data := Some base64Audio |} |} ] |};
     interrupted := false |}.

(** A message that carries only the interruption signal. *)
Definition interruptedMessage : LiveServerMessage :=
  {| outputTranscription := None; inputTranscription := None;
     turnComplete := false; modelTurn := None; interrupted := true |}.

(** ** A browser for the concrete scenarios *)
Module Sample.

(** The value of a base64 digit. *)
Definition sextet (c : N) : option N :=
  if ((65 <=? c) && (c <=? 90))%N then Some (c - 65)%N
  else if ((97 <=? c) && (c <=? 122))%N then Some (c - 71)%N
  else if ((48 <=? c) && (c <=? 57))%N then Some (c + 4)%N
  else if (c =? 43)%N then Some 62%N
  else if (c =? 47)%N then Some 63%N
  else None.

(** [atob] of the browser in its strict form: groups of four digits, the
    last one padded with [=]; [None] stands for the exception. *)
Fixpoint atob (s : JSString) : option (list N) :=
  match s with
  | [] => Some []
  | a :: b :: c :: d :: r =>
      match sextet a, sextet b with
      | Some x, Some y =>
          let b1 := (x * 4 + y / 16)%N in
          match r, sextet c, sextet d with
          | _, Some z, Some w =>
              match atob r with
              | Some bytes =>
                  Some (b1 :: ((y mod 16) * 16 + z / 4)%N
                           :: ((z mod 4) * 64 + w)%N :: bytes)
              | None => None
              end
          | [], Some z, None =>
              if (d =? 61)%N then Some [b1; ((y mod 16) * 16 + z / 4)%N]
              else None
          | [], None, None =>
              if ((c =? 61) && (d =? 61))%N then Some [b1] else None
          | _, _, _ => None
          end
      | _, _ => None
      end
  | _ => None
  end.

(** Modelled from the spec: [decode] of [audio-utils], which is not among the
    sources. Section 4.5: the payload is base64 text; a malformed payload
    raises. *)
Definition decode (s : JSString) : option (list N) := atob s.

(** Modelled from the spec: [decodeAudioData] of [audio-utils], which is not
    among the sources. Section 4.5: 16-bit PCM, two bytes per sample, decodes
    to a buffer of [sampleCount / sampleRate] seconds; a malformed payload
    (an odd byte count, no sample frame) raises. *)
Definition decodeAudioData (bytes : list N) (ctx : ObjRef)
    (rate channels : positive) : option AudioBuffer.t :=
  let n := N.of_nat (List.length bytes) in
  if ((n mod 2 =? 0) && (0 <? n / 2 / Npos channels))%N
  then Some {| AudioBuffer.length := (n / 2) / Npos channels;
               AudioBuffer.sampleRate := rate |}
  else None.

(** A browser in which [stop()] raises on every source. *)
Definition stopRaises (_ : ObjRef) : bool := true.

(** The base64 text of [n] samples of silence ([2 * n] zero bytes). *)
Definition pcm (n : N) : JSString :=
  List.concat (repeat [65%N; 65%N; 65%N; 65%N] (N.to_nat (2 * n / 3))) ++
  match (2 * n mod 3)%N with
  | 1%N => [65%N; 65%N; 61%N; 61%N]
  | 2%N => [65%N; 65%N; 65%N; 61%N]
  | _ => []
  end.

Definition granted : StartEnv :=
  {| API_KEY := Some [65%N]; micGranted := true |}.

Definition denied : StartEnv :=
  {| API_KEY := Some [65%N]; micGranted := false |}.

(** The state after a successful [startSession] and the open callback. *)
Definition connected : State :=
  Eval vm_compute in
    final (run decode decodeAudioData stopRaises
             [StartSession granted; OnOpen] initialState).

(** Two half-second chunks scheduled on the connected session. *)
Definition playing : State :=
  Eval vm_compute in
    final (run decode decodeAudioData stopRaises
             [OnMessage 1 (audioMessage (pcm 12000));
              OnMessage (5 # 4) (audioMessage (pcm 12000))] connected).

(** The bytes of [n] samples of silence. *)
Definition silence (n : N) : list N := repeat 0%N (N.to_nat (2 * n)).

(** A payload cut after three bytes, one sample and a half: ["AAAA"]. *)
Definition truncated : JSString := [65%N; 65%N; 65%N; 65%N].

(** A call that delivers [n] samples at clock reading [t]. *)
Definition call (t : Q) (n : N) : ScheduleCall :=
  {| clock := t; payload := audioMessage (pcm n);
     buffer := {| AudioBuffer.length := n; AudioBuffer.sampleRate := 24000 |} |}.

(** A message with an output fragment and an input fragment. *)
Definition bothFragments : LiveServerMessage :=
  {| outputTranscription := Some {| Genai.text := Some [72%N; 105%N] |};
     inputTranscription := Some {| Genai.text := Some [79%N; 75%N] |};
     turnComplete := false; modelTurn := None; interrupted := false |}.

(** A message with the interruption signal and a [modelTurn] that has a
    role and no [parts]. *)
Definition interruptedWithoutParts : LiveServerMessage :=
  {| outputTranscription := None; inputTranscription := None;
     turnComplete := false;
     modelTurn := Some {| Genai.parts := None |};
     interrupted := true |}.



(** A message with an input fragment only. *)
Definition inputFragment : LiveServerMessage :=
  {| outputTranscription := None;
     inputTranscription := Some {| Genai.text := Some [79%N; 75%N] |};
     turnComplete := false; modelTurn := None; interrupted := false |}.

(** An output transcription object without [text]. *)
Definition fragmentWithoutText : LiveServerMessage :=
  {| outputTranscription := Some {| Genai.text := None |};
     inputTranscription := None;
     turnComplete := false; modelTurn := None; interrupted := false |}.

End Sample.

(** ** The button of the page and what the component holds *)

Module View.

(** [disabled={status === ConnectionStatus.CONNECTING}] *)
Definition buttonDisabled (s : State) : bool :=
  ConnectionStatus_eqb (status s) CONNECTING.

(** [onClick={status === CONNECTED ? stopSession : startSession}]; a
    disabled button delivers no click. *)
Definition click (env : StartEnv) : Comp unit :=
  s <- get ;;
  if buttonDisabled s then ret tt
  else if ConnectionStatus_eqb (status s) CONNECTED then stopSession
  else startSession env.

Fixpoint clicks (envs : list StartEnv) : Comp unit :=
  match envs with
  | [] => ret tt
  | env :: r => click env ;; clicks r
  end.

End View.

(** [process.env.API_KEY] is truthy. *)
Definition keyPresent (env : StartEnv) : bool :=
  match API_KEY env with
  | Some k => truthy k
  | None => false
  end.


Definition ofOption {A} (f : A -> Effect) (o : option A) : list Effect :=
  match o with Some a => [f a] | None => [] end.

(** The audio contexts the two context refs hold. *)
Definition heldContexts (s : State) : list ObjRef :=
  match audioContextRef s with Some c => [c] | None => [] end ++
  match outAudioContextRef s with Some c => [c] | None => [] end.

(** No device, context or session is referenced. *)
Definition idle (s : State) : Prop :=
  audioContextRef s = None /\ outAudioContextRef s = None /\
  sessionPromiseRef s = None /\ micStreamRef s = None /\
  scriptProcessorRef s = None.

(** The audio contexts created and not yet closed, given the ones open
    before the calls. *)
Fixpoint openContexts (open : list ObjRef) (l : list Effect) : list ObjRef :=
  match l with
  | [] => open
  | NewAudioContext c _ :: r => openContexts (open ++ [c]) r
  | ContextClose c :: r => openContexts (set_delete c open) r
  | _ :: r => openContexts open r
  end.

(** The sources on which [start()] was called, in call order. *)
Fixpoint started (l : list Effect) : list ObjRef :=
  match l with
  | [] => []
  | SourceStart x _ :: r => x :: started r
  | _ :: r => started r
  end.

(** The active set against the calls made so far: no duplicate, every
    source started and not stopped, every source allocated. *)
Definition sourcesInvariant (l : list Effect) (s : State) : Prop :=
  NoDup (activeSourcesRef s) /\
  (forall x, In x (activeSourcesRef s) ->
             In x (started l) /\ ~ In x (stopped l)) /\
  (forall x, In x (activeSourcesRef s) -> (x < nextObject s)%nat) /\
  (forall x, In x (stopped l) -> (x < nextObject s)%nat).

(** The start times the audio branch gives to a sequence of calls. *)
Fixpoint startsFrom (cursor : Q) (calls : list ScheduleCall) : list Q :=
  match calls with
  | [] => []
  | c :: r =>
      Qmax cursor (clock c)
      :: startsFrom (Qmax cursor (clock c) + AudioBuffer.duration (buffer c)) r
  end.

(** The transcript fragments a sequence of messages appends to each
    accumulator. *)
Fixpoint outputFragments (ms : list (Q * LiveServerMessage)) : JSString :=
  match ms with
  | [] => []
  | (_, m) :: r =>
      match outputTranscription m with Some t => textOf t | None => [] end
      ++ outputFragments r
  end.

Fixpoint inputFragments (ms : list (Q * LiveServerMessage)) : JSString :=
  match ms with
  | [] => []
  | (_, m) :: r =>
      match outputTranscription m, inputTranscription m with
      | None, Some t => textOf t
      | _, _ => []
      end
      ++ inputFragments r
  end.

Definition messageEvents (ms : list (Q * LiveServerMessage)) : list Event :=
  map (fun c => OnMessage (fst c) (snd c)) ms.

(** Closed goals are settled by evaluation. *)
Ltac evaluate := vm_compute; first [reflexivity | discriminate].

(** A call of the sample browser is well formed: its payload [p] decodes. *)
Ltac carried p :=
  split; [exists p; repeat split; evaluate | reflexivity].

(** * Properties *)

Unset Implicit Arguments.

Section Properties.

Variable decode : JSString -> option (list N).
Variable decodeAudioData :
  list N -> ObjRef -> positive -> positive -> option AudioBuffer.t.
Variable stopRaises : ObjRef -> bool.

Local Abbreviation handleAudioOutput := (handleAudioOutput decode decodeAudioData).
Local Abbreviation handleInterruptions := (handleInterruptions stopRaises).
Local Abbreviation handleMessage :=
  (handleMessage decode decodeAudioData stopRaises).
Local Abbreviation step := (step decode decodeAudioData stopRaises).
Local Abbreviation dispatch := (dispatch decode decodeAudioData stopRaises).
Local Abbreviation run := (run decode decodeAudioData stopRaises).
Local Abbreviation decoded := (decoded decode decodeAudioData).
Local Abbreviation chunk := (chunk decode decodeAudioData).

(** ** The stages of [handleMessage], one equation each *)

Lemma stopAll_eq (l : list ObjRef) (s : State) :
  forEach l
    (fun source => try_catch (sourceStop stopRaises source) (fun _ => ret tt))
    s
  = {| effects := map SourceStop l; final := s; result := Ok tt |}.
Proof.
  induction l as [|x r IH]; [reflexivity|].
  assert (E : try_catch (sourceStop stopRaises x) (fun _ => ret tt) s
              = {| effects := [SourceStop x]; final := s; result := Ok tt |}).
  { unfold try_catch, sourceStop, bind, emit, throw, ret.
    destruct (stopRaises x); reflexivity. }
  cbn [forEach]. unfold bind. rewrite E, IH. reflexivity.
Qed.

Lemma handleInterruptions_eq (m : LiveServerMessage) (s : State) :
  handleInterruptions m s =
  if interrupted m then
    {| effects := map SourceStop (activeSourcesRef s);
       final := with_nextStartTimeRef 0 (with_activeSourcesRef [] s);
       result := Ok tt |}
  else {| effects := []; final := s; result := Ok tt |}.
Proof.
  unfold App.handleInterruptions, when.
  destruct (interrupted m); [|reflexivity].
  unfold bind, get. rewrite stopAll_eq. cbn. rewrite app_nil_r. reflexivity.
Qed.

Lemma malformed_read (m : LiveServerMessage) :
  readBase64Audio m =
  if malformed m then Throw TypeError
  else Ok (match readBase64Audio m with Ok p => p | Throw _ => None end).
Proof.
  unfold readBase64Audio, malformed.
  destruct (modelTurn m) as [[[[|[[b|]] r]|]]|]; reflexivity.
Qed.

Lemma carries_readable (ctx : ObjRef) (m : LiveServerMessage)
    (b : AudioBuffer.t) :
  carries decode decodeAudioData ctx m b -> malformed m = false.
Proof.
  intros (p & Hp & _). rewrite malformed_read in Hp.
  destruct (malformed m); [discriminate Hp|reflexivity].
Qed.

(** Reading the payload of a [modelTurn] without [parts] raises, and nothing
    is done. *)
Lemma handleAudioOutput_thrown (clockNow : Q) (m : LiveServerMessage)
    (s : State) :
  malformed m = true ->
  handleAudioOutput clockNow m s =
  {| effects := []; final := s; result := Throw TypeError |}.
Proof.
  intro H. unfold App.handleAudioOutput, bind.
  rewrite malformed_read, H. reflexivity.
Qed.

Lemma handleAudioOutput_eq (clockNow : Q) (m : LiveServerMessage) (s : State) :
  malformed m = false ->
  handleAudioOutput clockNow m s =
  let startAt := Qmax (nextStartTimeRef s) clockNow in
  match chunk m s with
  | None => {| effects := []; final := s; result := Ok tt |}
  | Some (ctx, None) =>
      {| effects := [ConsoleError "Error playing audio chunk:"];
         final := with_nextStartTimeRef startAt s;
         result := Ok tt |}
  | Some (ctx, Some audioBuffer) =>
      {| effects := [CreateBufferSource (nextObject s) ctx;
                     SourceStart (nextObject s) startAt];
         final :=
           with_activeSourcesRef
             (set_add (nextObject s) (activeSourcesRef s))
             (with_nextStartTimeRef
                (startAt + AudioBuffer.duration audioBuffer)
                (with_nextObject (S (nextObject s))
                   (with_nextStartTimeRef startAt s)));
         result := Ok tt |}
  end.
Proof.
  intro Hm. unfold App.handleAudioOutput, Payload.chunk, Payload.decoded.
  unfold bind at 1. rewrite malformed_read, Hm.
  cbn [liftResult ret]. unfold bind at 1. cbn [get].
  destruct (match readBase64Audio m with Ok p => p | Throw _ => None end)
    as [b|]; [|reflexivity].
  destruct (outAudioContextRef s) as [ctx|] eqn:Ec; [|reflexivity].
  destruct (truthy b); [|reflexivity].
  unfold bind at 1. cbn [modify]. unfold try_catch.
  unfold bind at 1. unfold orThrow at 1.
  destruct (decode b) as [bytes|]; [|reflexivity].
  cbn [ret]. unfold bind at 1. unfold orThrow at 1.
  destruct (decodeAudioData bytes ctx 24000%positive 1%positive);
    reflexivity.
Qed.

Lemma with_messages_same (s : State) : with_messages (messages s) s = s.
Proof. destruct s; reflexivity. Qed.

Lemma afterTranscripts_eq (m : LiveServerMessage) (s : State) :
  afterTranscripts m s =
  match outputTranscription m with
  | Some t => with_currentOutputText (currentOutputText s ++ textOf t) s
  | None =>
      match inputTranscription m with
      | Some t => with_currentInputText (currentInputText s ++ textOf t) s
      | None => s
      end
  end.
Proof.
  unfold afterTranscripts, handleTranscription, handleTurnComplete, when, bind.
  destruct (outputTranscription m); [|destruct (inputTranscription m)];
    destruct (turnComplete m); cbn; try reflexivity;
    apply with_messages_same.
Qed.

Lemma transcripts_eq (m : LiveServerMessage) (s : State) :
  (handleTranscription m ;; handleTurnComplete m) s =
  {| effects := []; final := afterTranscripts m s; result := Ok tt |}.
Proof.
  unfold afterTranscripts, handleTranscription, handleTurnComplete, when, bind.
  destruct (outputTranscription m); [|destruct (inputTranscription m)];
    destruct (turnComplete m); reflexivity.
Qed.

Lemma afterTranscripts_frame (m : LiveServerMessage) (s : State) :
  let s' := afterTranscripts m s in
  status s' = status s /\ messages s' = messages s /\
  audioContextRef s' = audioContextRef s /\
  outAudioContextRef s' = outAudioContextRef s /\
  nextStartTimeRef s' = nextStartTimeRef s /\
  activeSourcesRef s' = activeSourcesRef s /\
  sessionPromiseRef s' = sessionPromiseRef s /\
  micStreamRef s' = micStreamRef s /\
  scriptProcessorRef s' = scriptProcessorRef s /\
  nextObject s' = nextObject s.
Proof.
  cbv zeta. rewrite afterTranscripts_eq.
  destruct (outputTranscription m); [|destruct (inputTranscription m)];
    repeat split; reflexivity.
Qed.

Lemma chunk_afterTranscripts (m : LiveServerMessage) (s : State) :
  chunk m (afterTranscripts m s) = chunk m s.
Proof.
  unfold Payload.chunk.
  destruct (afterTranscripts_frame m s) as (_ & _ & _ & E & _).
  rewrite E. reflexivity.
Qed.

Lemma handleAudioOutput_ok (clockNow : Q) (m : LiveServerMessage) (s : State) :
  malformed m = false ->
  result (handleAudioOutput clockNow m s) = Ok tt.
Proof.
  intro Hm. rewrite handleAudioOutput_eq by exact Hm. cbv zeta.
  destruct (chunk m s) as [[ctx [b|]]|]; reflexivity.
Qed.

Lemma handleInterruptions_ok (m : LiveServerMessage) (s : State) :
  result (handleInterruptions m s) = Ok tt.
Proof.
  rewrite handleInterruptions_eq. destruct (interrupted m); reflexivity.
Qed.

Lemma bind_assoc {A B C} (m : Comp A) (f : A -> Comp B) (g : B -> Comp C)
    (s : State) :
  bind m (fun a => bind (f a) g) s = bind (bind m f) g s.
Proof.
  unfold bind. destruct (m s) as [e1 s1 [a|x]]; [|reflexivity].
  destruct (f a s1) as [e2 s2 [b|y]]; [|reflexivity].
  destruct (g b s2) as [e3 s3 r]. rewrite app_assoc. reflexivity.
Qed.

(** When the payload can be read, [handleMessage] does not raise: its
    outcome is the audio branch followed by the interruption branch, run on
    the state left by the transcripts. *)
Lemma handleMessage_eq (clockNow : Q) (m : LiveServerMessage) (s : State) :
  malformed m = false ->
  handleMessage clockNow m s =
  let oa := handleAudioOutput clockNow m (afterTranscripts m s) in
  let oi := handleInterruptions m (final oa) in
  {| effects := effects oa ++ effects oi; final := final oi; result := Ok tt |}.
Proof.
  intro Hm. unfold App.handleMessage. cbv zeta.
  rewrite (bind_assoc (handleTranscription m) (fun _ => handleTurnComplete m)).
  unfold bind at 1. rewrite transcripts_eq.
  pose proof (handleAudioOutput_ok clockNow m (afterTranscripts m s) Hm) as Ra.
  unfold bind.
  destruct (handleAudioOutput clockNow m (afterTranscripts m s))
    as [e1 s1 [[]|x]]; [|discriminate].
  pose proof (handleInterruptions_ok m s1) as Ri.
  cbn [effects final].
  destruct (handleInterruptions m s1) as [e2 s2 r]. cbn in Ri |- *.
  rewrite Ri. reflexivity.
Qed.

(** When the payload cannot be read, [handleMessage] raises once the
    transcripts are written: the audio and the interruption branches do not
    run. *)
Lemma handleMessage_thrown (clockNow : Q) (m : LiveServerMessage) (s : State) :
  malformed m = true ->
  handleMessage clockNow m s =
  {| effects := []; final := afterTranscripts m s; result := Throw TypeError |}.
Proof.
  intro Hm. unfold App.handleMessage.
  rewrite (bind_assoc (handleTranscription m) (fun _ => handleTurnComplete m)).
  unfold bind at 1. rewrite transcripts_eq.
  unfold bind. rewrite (handleAudioOutput_thrown _ _ _ Hm). reflexivity.
Qed.

Lemma dispatch_OnMessage (clockNow : Q) (m : LiveServerMessage) (s : State) :
  malformed m = false ->
  dispatch (OnMessage clockNow m) s = handleMessage clockNow m s.
Proof.
  intro Hm. unfold App.dispatch, try_catch. cbn [App.step].
  rewrite handleMessage_eq by exact Hm. reflexivity.
Qed.

Lemma dispatch_OnMessage_thrown (clockNow : Q) (m : LiveServerMessage)
    (s : State) :
  malformed m = true ->
  dispatch (OnMessage clockNow m) s =
  {| effects := [ConsoleError "Uncaught"]; final := afterTranscripts m s;
     result := Ok tt |}.
Proof.
  intro Hm. unfold App.dispatch, try_catch. cbn [App.step].
  rewrite handleMessage_thrown by exact Hm. reflexivity.
Qed.

Lemma dispatch_ok (e : Event) (s : State) : result (dispatch e s) = Ok tt.
Proof.
  unfold App.dispatch, try_catch.
  destruct (step e s) as [e1 s1 [[]|x]]; reflexivity.
Qed.

Lemma dispatch_final (e : Event) (s : State) :
  final (dispatch e s) = final (step e s).
Proof.
  unfold App.dispatch, try_catch.
  destruct (step e s) as [e1 s1 [[]|x]]; reflexivity.
Qed.

Lemma run_cons (e : Event) (es : list Event) (s : State) :
  result (dispatch e s) = Ok tt ->
  run (e :: es) s =
  {| effects := effects (dispatch e s) ++ effects (run es (final (dispatch e s)));
     final := final (run es (final (dispatch e s)));
     result := result (run es (final (dispatch e s))) |}.
Proof.
  intro H. unfold App.run. cbn [forEach]. unfold bind.
  fold dispatch. destruct (dispatch e s) as [e1 s1 r1]. cbn in H |- *.
  rewrite H. destruct (forEach es dispatch s1); reflexivity.
Qed.

Lemma startTimes_app (l1 l2 : list Effect) :
  startTimes (l1 ++ l2) = startTimes l1 ++ startTimes l2.
Proof.
  induction l1 as [|e r IH]; [reflexivity|].
  destruct e; cbn; rewrite IH; reflexivity.
Qed.

Lemma carries_chunk (ctx : ObjRef) (m : LiveServerMessage)
    (b : AudioBuffer.t) (s : State) :
  outAudioContextRef s = Some ctx ->
  carries decode decodeAudioData ctx m b ->
  chunk m s = Some (ctx, Some b).
Proof.
  intros Hc (p & Hp & Ht & Hd). unfold Payload.chunk.
  rewrite Hp, Hc, Ht. fold (decoded ctx p). rewrite Hd. reflexivity.
Qed.

(** A message that carries a decodable payload and no interruption
    schedules one source. *)
Lemma handleMessage_schedules (clockNow : Q) (m : LiveServerMessage)
    (s : State) (ctx : ObjRef) (b : AudioBuffer.t) :
  outAudioContextRef s = Some ctx ->
  carries decode decodeAudioData ctx m b ->
  interrupted m = false ->
  let o := handleMessage clockNow m s in
  let startAt := Qmax (nextStartTimeRef s) clockNow in
  effects o = [CreateBufferSource (nextObject s) ctx;
               SourceStart (nextObject s) startAt] /\
  nextStartTimeRef (final o) = (startAt + AudioBuffer.duration b)%Q /\
  activeSourcesRef (final o) = set_add (nextObject s) (activeSourcesRef s) /\
  outAudioContextRef (final o) = Some ctx /\
  result o = Ok tt.
Proof.
  intros Hc Hb Hi. cbv zeta.
  pose proof (carries_readable ctx m b Hb) as Hm.
  destruct (afterTranscripts_frame m s) as (_ & _ & _ & Eo & Et & Ea & _ & _ & _ & En).
  rewrite handleMessage_eq by exact Hm. cbv zeta.
  rewrite handleAudioOutput_eq by exact Hm. cbv zeta.
  rewrite (@carries_chunk ctx m b) by (rewrite ?Eo; assumption).
  rewrite handleInterruptions_eq, Hi.
  cbn [effects final result app nextStartTimeRef activeSourcesRef
       outAudioContextRef with_activeSourcesRef with_nextStartTimeRef
       with_nextObject].
  rewrite Eo, Et, Ea, En, Hc. repeat split; reflexivity.
Qed.

(** C1 (amended). Every call of [handleMessage] that schedules a decoded
    buffer starts it at [startAt = max(nextStartTime, clockNow)] and leaves
    the cursor at [startAt + buffer.duration] (the audio branch always, the
    whole handler when the message carries no interruption); three buffers
    of half a second, scheduled by messages without interruption from
    cursor 0 with the first call at clock 1, start at 1, 3/2 and 2 when the
    second call arrives no later than clock 3/2 and the third no later than
    clock 2. *)
Theorem schedule_start_and_cursor :
  (forall (st : State) (clockNow : Q) (m : LiveServerMessage)
          (ctx : ObjRef) (base64Audio : JSString) (bytes : list N)
          (audioBuffer : AudioBuffer.t),
      outAudioContextRef st = Some ctx ->
      readBase64Audio m = Ok (Some base64Audio) ->
      truthy base64Audio = true ->
      decode base64Audio = Some bytes ->
      decodeAudioData bytes ctx 24000%positive 1%positive = Some audioBuffer ->
      let startAt := Qmax (nextStartTimeRef st) clockNow in
      let oa := handleAudioOutput clockNow m st in
      let o := handleMessage clockNow m st in
      startTimes (effects oa) = [startAt] /\
      nextStartTimeRef (final oa)
        = (startAt + AudioBuffer.duration audioBuffer)%Q /\
      startTimes (effects o) = [startAt] /\
      (interrupted m = false ->
       nextStartTimeRef (final o)
         = (startAt + AudioBuffer.duration audioBuffer)%Q))
  /\
  (forall (st : State) (ctx : ObjRef) (m1 m2 m3 : LiveServerMessage)
          (b1 b2 b3 : AudioBuffer.t) (t2 t3 : Q),
      outAudioContextRef st = Some ctx ->
      nextStartTimeRef st == 0 ->
      carries decode decodeAudioData ctx m1 b1 ->
      carries decode decodeAudioData ctx m2 b2 ->
      carries decode decodeAudioData ctx m3 b3 ->
      interrupted m1 = false -> interrupted m2 = false ->
      interrupted m3 = false ->
      AudioBuffer.duration b1 == 1 # 2 ->
      AudioBuffer.duration b2 == 1 # 2 ->
      AudioBuffer.duration b3 == 1 # 2 ->
      t2 <= 3 # 2 -> t3 <= 2 ->
      Forall2 Qeq
        (startTimes
           (effects (run [OnMessage 1 m1; OnMessage t2 m2; OnMessage t3 m3] st)))
        [1; 3 # 2; 2]).
Proof.
  split.
  - intros st clockNow m ctx p bytes b Hc Hp Ht Hd Hb. cbv zeta.
    assert (Hy : carries decode decodeAudioData ctx m b).
    { exists p. repeat split; try assumption.
      unfold Payload.decoded. rewrite Hd. exact Hb. }
    pose proof (carries_readable ctx m b Hy) as Hm.
    assert (Hk : chunk m st = Some (ctx, Some b))
      by (apply carries_chunk; assumption).
    destruct (afterTranscripts_frame m st)
      as (_ & _ & _ & Eo & Et & Ea & _ & _ & _ & En).
    rewrite handleMessage_eq by exact Hm. cbv zeta.
    rewrite !handleAudioOutput_eq by exact Hm. cbv zeta.
    rewrite chunk_afterTranscripts, Hk, handleInterruptions_eq.
    cbn [effects final]. rewrite startTimes_app.
    cbn [effects final nextStartTimeRef startTimes
      with_activeSourcesRef with_nextStartTimeRef with_nextObject].
    rewrite Et.
    repeat split.
    + destruct (interrupted m); cbn [effects].
      * assert (E : forall l, startTimes (map SourceStop l) = []).
        { induction l; [reflexivity|assumption]. }
        rewrite E. reflexivity.
      * reflexivity.
    + intros ->. reflexivity.
  - intros st ctx m1 m2 m3 b1 b2 b3 t2 t3 Hc H0 C1 C2 C3 I1 I2 I3 D1 D2 D3 T2 T3.
    destruct (@handleMessage_schedules 1 m1 st ctx b1 Hc C1 I1)
      as (E1 & N1 & _ & O1 & R1).
    set (s1 := final (handleMessage 1 m1 st)) in *.
    destruct (@handleMessage_schedules t2 m2 s1 ctx b2 O1 C2 I2)
      as (E2 & N2 & _ & O2 & R2).
    set (s2 := final (handleMessage t2 m2 s1)) in *.
    destruct (@handleMessage_schedules t3 m3 s2 ctx b3 O2 C3 I3)
      as (E3 & N3 & _ & O3 & R3).
    pose proof (carries_readable ctx m1 b1 C1) as W1.
    pose proof (carries_readable ctx m2 b2 C2) as W2.
    pose proof (carries_readable ctx m3 b3 C3) as W3.
    rewrite run_cons by apply dispatch_ok.
    cbn [effects final]. rewrite (dispatch_OnMessage _ _ _ W1). fold s1.
    rewrite run_cons by apply dispatch_ok.
    cbn [effects final]. rewrite (dispatch_OnMessage _ _ _ W2). fold s2.
    rewrite run_cons by apply dispatch_ok.
    cbn [effects final]. rewrite (dispatch_OnMessage _ _ _ W3).
    rewrite E1, E2, E3. cbn.
    pose proof (Q.max_spec (nextStartTimeRef st) 1) as M1.
    pose proof (Q.max_spec (nextStartTimeRef s1) t2) as M2.
    pose proof (Q.max_spec (nextStartTimeRef s2) t3) as M3.
    rewrite N2 in M3 |- *. rewrite N1 in M2, M3 |- *.
    repeat constructor; lra.
Qed.

Lemma stopped_app (l1 l2 : list Effect) :
  stopped (l1 ++ l2) = stopped l1 ++ stopped l2.
Proof.
  induction l1 as [|e r IH]; [reflexivity|].
  destruct e; cbn; rewrite IH; reflexivity.
Qed.

Lemma stopped_stops (l : list ObjRef) : stopped (map SourceStop l) = l.
Proof. induction l as [|x r IH]; cbn; [|rewrite IH]; reflexivity. Qed.

Lemma startTimes_stops (l : list ObjRef) : startTimes (map SourceStop l) = [].
Proof. induction l as [|x r IH]; [reflexivity|exact IH]. Qed.

Lemma set_add_incl (x y : ObjRef) (l : list ObjRef) :
  In x l -> In x (set_add y l).
Proof.
  intro H. unfold set_add. destruct (set_has y l); [exact H|].
  apply in_or_app. left. exact H.
Qed.

Lemma handleAudioOutput_keeps_sources (clockNow : Q) (m : LiveServerMessage)
    (s : State) (x : ObjRef) :
  In x (activeSourcesRef s) ->
  In x (activeSourcesRef (final (handleAudioOutput clockNow m s))).
Proof.
  intro H. destruct (malformed m) eqn:Hm.
  - rewrite handleAudioOutput_thrown by exact Hm. exact H.
  - rewrite handleAudioOutput_eq by exact Hm. cbv zeta.
    destruct (chunk m s) as [[ctx [b|]]|]; cbn; try exact H.
    apply set_add_incl. exact H.
Qed.

Lemma cleared_same (s : State) :
  activeSourcesRef s = [] -> nextStartTimeRef s = 0 ->
  with_nextStartTimeRef 0 (with_activeSourcesRef [] s) = s.
Proof. destruct s; cbn; intros -> ->; reflexivity. Qed.

Lemma handleAudioOutput_frame (clockNow : Q) (m : LiveServerMessage)
    (s : State) :
  let s' := final (handleAudioOutput clockNow m s) in
  status s' = status s /\ messages s' = messages s /\
  currentInputText s' = currentInputText s /\
  currentOutputText s' = currentOutputText s /\
  audioContextRef s' = audioContextRef s /\
  outAudioContextRef s' = outAudioContextRef s /\
  sessionPromiseRef s' = sessionPromiseRef s /\
  micStreamRef s' = micStreamRef s /\
  scriptProcessorRef s' = scriptProcessorRef s.
Proof.
  cbv zeta. destruct (malformed m) eqn:Hm.
  - rewrite handleAudioOutput_thrown by exact Hm. repeat split.
  - rewrite handleAudioOutput_eq by exact Hm. cbv zeta.
    destruct (chunk m s) as [[ctx [b|]]|]; repeat split; reflexivity.
Qed.

Lemma handleInterruptions_frame (m : LiveServerMessage) (s : State) :
  let s' := final (handleInterruptions m s) in
  status s' = status s /\ messages s' = messages s /\
  currentInputText s' = currentInputText s /\
  currentOutputText s' = currentOutputText s /\
  audioContextRef s' = audioContextRef s /\
  outAudioContextRef s' = outAudioContextRef s /\
  sessionPromiseRef s' = sessionPromiseRef s /\
  micStreamRef s' = micStreamRef s /\
  scriptProcessorRef s' = scriptProcessorRef s.
Proof.
  cbv zeta. rewrite handleInterruptions_eq.
  destruct (interrupted m); repeat split; reflexivity.
Qed.

(** What [handleMessage] leaves untouched. *)
Lemma handleMessage_frame (clockNow : Q) (m : LiveServerMessage) (s : State) :
  let s' := final (handleMessage clockNow m s) in
  status s' = status s /\ messages s' = messages s /\
  audioContextRef s' = audioContextRef s /\
  outAudioContextRef s' = outAudioContextRef s /\
  sessionPromiseRef s' = sessionPromiseRef s /\
  micStreamRef s' = micStreamRef s /\
  scriptProcessorRef s' = scriptProcessorRef s.
Proof.
  cbv zeta.
  destruct (afterTranscripts_frame m s)
    as (T1 & T2 & T3 & T4 & _ & _ & T7 & T8 & T9 & _).
  destruct (malformed m) eqn:Hm.
  - rewrite handleMessage_thrown by exact Hm. cbn [final].
    repeat split; assumption.
  - rewrite handleMessage_eq by exact Hm. cbv zeta. cbn [final].
    destruct (handleInterruptions_frame m
                (final (handleAudioOutput clockNow m (afterTranscripts m s))))
      as (I1 & I2 & _ & _ & I5 & I6 & I7 & I8 & I9).
    destruct (handleAudioOutput_frame clockNow m (afterTranscripts m s))
      as (A1 & A2 & _ & _ & A5 & A6 & A7 & A8 & A9).
    rewrite I1, I2, I5, I6, I7, I8, I9, A1, A2, A5, A6, A7, A8, A9.
    repeat split; assumption.
Qed.

(** The audio branch reads the state only through the output context, the
    cursor, the active set and the allocation counter. *)
Lemma handleAudioOutput_afterTranscripts (clockNow : Q)
    (m : LiveServerMessage) (s : State) :
  let oa := handleAudioOutput clockNow m s in
  let oa' := handleAudioOutput clockNow m (afterTranscripts m s) in
  effects oa' = effects oa /\
  nextStartTimeRef (final oa') = nextStartTimeRef (final oa) /\
  activeSourcesRef (final oa') = activeSourcesRef (final oa).
Proof.
  cbv zeta.
  destruct (afterTranscripts_frame m s)
    as (_ & _ & _ & _ & Et & Ea & _ & _ & _ & En).
  destruct (malformed m) eqn:Hm.
  - rewrite !handleAudioOutput_thrown by exact Hm. cbn [effects final].
    repeat split; assumption.
  - rewrite !handleAudioOutput_eq by exact Hm. cbv zeta.
    rewrite chunk_afterTranscripts.
    destruct (chunk m s) as [[ctx [b|]]|]; cbn; rewrite ?Et, ?Ea, ?En;
      repeat split; reflexivity.
Qed.

(** What a message whose payload can be read does, branch after branch. *)
Lemma handleMessage_outcome (clockNow : Q) (m : LiveServerMessage)
    (st : State) :
  malformed m = false ->
  let o := handleMessage clockNow m st in
  let oa := handleAudioOutput clockNow m st in
  result o = Ok tt /\
  effects o =
    effects oa ++
    (if interrupted m then map SourceStop (activeSourcesRef (final oa))
     else []) /\
  startTimes (effects o) =
    match chunk m st with
    | Some (_, Some _) => [Qmax (nextStartTimeRef st) clockNow]
    | _ => []
    end /\
  activeSourcesRef (final o) =
    (if interrupted m then [] else activeSourcesRef (final oa)) /\
  nextStartTimeRef (final o) =
    (if interrupted m then 0 else nextStartTimeRef (final oa)).
Proof.
  intro Hm. cbv zeta.
  destruct (handleAudioOutput_afterTranscripts clockNow m st) as (Ee & Ec & Ea).
  rewrite handleMessage_eq by exact Hm. cbv zeta. cbn [effects final result].
  rewrite startTimes_app, Ee, handleInterruptions_eq.
  split; [reflexivity|].
  split; [destruct (interrupted m); cbn [effects]; rewrite ?Ea; reflexivity|].
  split.
  - rewrite handleAudioOutput_eq by exact Hm. cbv zeta.
    destruct (chunk m st) as [[ctx [b|]]|];
      destruct (interrupted m); cbn [effects startTimes app];
      rewrite ?startTimes_stops; reflexivity.
  - destruct (interrupted m); cbn [final activeSourcesRef nextStartTimeRef
      with_nextStartTimeRef with_activeSourcesRef];
      split; first [reflexivity | assumption].
Qed.

(** The transcript accumulators after a message, raised or not. *)
Lemma handleMessage_texts (clockNow : Q) (m : LiveServerMessage) (s : State) :
  let s' := final (handleMessage clockNow m s) in
  currentOutputText s' =
    currentOutputText s ++
    match outputTranscription m with Some t => textOf t | None => [] end /\
  currentInputText s' =
    currentInputText s ++
    match outputTranscription m, inputTranscription m with
    | None, Some t => textOf t
    | _, _ => []
    end.
Proof.
  cbv zeta.
  assert (T : currentOutputText (afterTranscripts m s) =
              currentOutputText s ++
              match outputTranscription m with
              | Some t => textOf t | None => []
              end /\
              currentInputText (afterTranscripts m s) =
              currentInputText s ++
              match outputTranscription m, inputTranscription m with
              | None, Some t => textOf t
              | _, _ => []
              end).
  { rewrite afterTranscripts_eq.
    destruct (outputTranscription m); [|destruct (inputTranscription m)];
      cbn; rewrite ?app_nil_r; split; reflexivity. }
  destruct (malformed m) eqn:Hm.
  - rewrite handleMessage_thrown by exact Hm. exact T.
  - rewrite handleMessage_eq by exact Hm. cbv zeta. cbn [final].
    destruct (handleInterruptions_frame m
                (final (handleAudioOutput clockNow m (afterTranscripts m s))))
      as (_ & _ & I3 & I4 & _).
    destruct (handleAudioOutput_frame clockNow m (afterTranscripts m s))
      as (_ & _ & A3 & A4 & _).
    rewrite I3, I4, A3, A4. exact T.
Qed.

(** C2, what the code does. A message with the interruption signal whose
    payload can be read never raises, whatever [stop()] does on each source:
    every source of [activeSources] receives [stop()], the set ends empty
    and the cursor at 0, and the signal repeated on that state changes
    nothing, calls nothing and raises nothing. A message with the signal and
    a [modelTurn] without [parts] raises while the payload is read: no
    source receives [stop()], and the set and the cursor stay as they
    were. *)
Theorem interruption_clears_playback :
  (forall (st : State) (clockNow : Q) (m : LiveServerMessage),
      interrupted m = true ->
      malformed m = false ->
      let o := handleMessage clockNow m st in
      result o = Ok tt /\
      (forall source, In source (activeSourcesRef st) ->
                      In source (stopped (effects o))) /\
      activeSourcesRef (final o) = [] /\
      nextStartTimeRef (final o) = 0 /\
      handleMessage clockNow interruptedMessage (final o) =
        {| effects := []; final := final o; result := Ok tt |})
  /\
  (forall (st : State) (clockNow : Q) (m : LiveServerMessage),
      interrupted m = true ->
      malformed m = true ->
      let o := handleMessage clockNow m st in
      result o = Throw TypeError /\
      stopped (effects o) = [] /\
      activeSourcesRef (final o) = activeSourcesRef st /\
      nextStartTimeRef (final o) = nextStartTimeRef st).
Proof.
  split.
  - intros st clockNow m Hi Hm. cbv zeta.
    destruct (afterTranscripts_frame m st)
      as (_ & _ & _ & _ & _ & Ea & _).
    rewrite (handleMessage_eq clockNow m st Hm). cbv zeta.
    rewrite (handleInterruptions_eq m), Hi. cbn [effects final result].
    split; [reflexivity|]. split; [|split; [reflexivity|split; [reflexivity|]]].
    + intros x Hx. rewrite stopped_app, stopped_stops.
      apply in_or_app. right. apply handleAudioOutput_keeps_sources.
      rewrite Ea. exact Hx.
    + rewrite handleMessage_eq by reflexivity. cbv zeta.
      rewrite afterTranscripts_eq, handleAudioOutput_eq by reflexivity.
      rewrite handleInterruptions_eq.
      cbn. rewrite cleared_same; reflexivity.
  - intros st clockNow m Hi Hm. cbv zeta.
    destruct (afterTranscripts_frame m st)
      as (_ & _ & _ & _ & Et & Ea & _).
    rewrite handleMessage_thrown by exact Hm. cbn [effects final result].
    repeat split; assumption.
Qed.


(** C4 (amended). When the payload of a message fails to decode, the handler
    does not raise: the audio branch logs the failure, starts no source,
    leaves the active set as it was and sets the cursor to
    [max(nextStartTime, clockNow)], that is, leaves it unchanged unless the
    clock had overtaken it, and the start time of any chunk scheduled at a
    later clock reading is the same as if the failed chunk had not arrived;
    the connection status and the session handles are unchanged; an
    interruption signal in the same message is then processed as usual
    (every active source stopped, the set emptied, the cursor set to 0),
    and without it the set and the cursor stay as the audio branch left
    them. *)
Theorem decode_failure_drops_chunk :
  forall (st : State) (clockNow : Q) (m : LiveServerMessage)
         (ctx : ObjRef) (base64Audio : JSString),
    outAudioContextRef st = Some ctx ->
    readBase64Audio m = Ok (Some base64Audio) ->
    truthy base64Audio = true ->
    decoded ctx base64Audio = None ->
    let oa := handleAudioOutput clockNow m st in
    let o := handleMessage clockNow m st in
    result oa = Ok tt /\
    effects oa = [ConsoleError "Error playing audio chunk:"] /\
    activeSourcesRef (final oa) = activeSourcesRef st /\
    nextStartTimeRef (final oa) = Qmax (nextStartTimeRef st) clockNow /\
    (clockNow <= nextStartTimeRef st ->
     nextStartTimeRef (final oa) == nextStartTimeRef st) /\
    (forall later, clockNow <= later ->
       Qmax (nextStartTimeRef (final oa)) later
       == Qmax (nextStartTimeRef st) later) /\
    result o = Ok tt /\
    startTimes (effects o) = [] /\
    status (final o) = status st /\
    sessionPromiseRef (final o) = sessionPromiseRef st /\
    outAudioContextRef (final o) = outAudioContextRef st /\
    effects o =
      ConsoleError "Error playing audio chunk:"
      :: (if interrupted m then map SourceStop (activeSourcesRef st) else []) /\
    activeSourcesRef (final o) =
      (if interrupted m then [] else activeSourcesRef st) /\
    nextStartTimeRef (final o) =
      (if interrupted m then 0 else Qmax (nextStartTimeRef st) clockNow).
Proof.
  intros st clockNow m ctx p Hc Hp Ht Hd. cbv zeta.
  assert (Hm : malformed m = false).
  { rewrite malformed_read in Hp.
    destruct (malformed m); [discriminate Hp|reflexivity]. }
  destruct (handleMessage_frame clockNow m st)
    as (F1 & _ & _ & F4 & F5 & _).
  assert (Hk : chunk m st = Some (ctx, None)).
  { unfold Payload.chunk. rewrite Hp, Hc, Ht. fold (decoded ctx p).
    rewrite Hd. reflexivity. }
  destruct (handleMessage_outcome clockNow m st Hm) as (R & Oe & Os & Oa & Oc).
  rewrite R, Os, Oe, Oa, Oc, F1, F4, F5, Hk.
  rewrite handleAudioOutput_eq by exact Hm. cbv zeta. rewrite Hk.
  cbn [effects final result app nextStartTimeRef activeSourcesRef
       with_nextStartTimeRef].
  repeat split.
  - intro Hle. apply Q.max_l. exact Hle.
  - intros later Hl.
    destruct (Q.max_spec (nextStartTimeRef st) clockNow) as [[L1 E1]|[L1 E1]];
      destruct (Q.max_spec (Qmax (nextStartTimeRef st) clockNow) later)
        as [[L2 E2]|[L2 E2]];
      destruct (Q.max_spec (nextStartTimeRef st) later) as [[L3 E3]|[L3 E3]];
      lra.
Qed.

(** ** [stopSession] *)

(** C6. [stopSession] never raises and leaves the status [DISCONNECTED] from
    any state, and a second call right after it changes nothing and calls
    nothing: this covers two calls in a row from [CONNECTED] and one call
    from [DISCONNECTED]. *)
Theorem stopSession_idempotent :
  forall st : State,
    let o := stopSession st in
    result o = Ok tt /\
    status (final o) = DISCONNECTED /\
    stopSession (final o) =
      {| effects := []; final := final o; result := Ok tt |}.
Proof.
  intros [st ms ci co ac oc nx act sp mic scr no].
  destruct ac, oc, mic, scr; repeat split.
Qed.

Lemma stopSession_frame (s : State) :
  let s' := final (stopSession s) in
  result (stopSession s) = Ok tt /\
  filter acquires (effects (stopSession s)) = [] /\
  status s' = DISCONNECTED /\
  messages s' = messages s /\
  nextStartTimeRef s' = nextStartTimeRef s /\
  activeSourcesRef s' = activeSourcesRef s /\
  currentInputText s' = [] /\ currentOutputText s' = [].
Proof.
  destruct s as [st ms ci co ac oc nx act sp mic scr no].
  destruct ac, oc, mic, scr; repeat split.
Qed.

(** ** [startSession] and the event loop *)

Lemma startSession_guard (env : StartEnv) (s : State) :
  status s <> DISCONNECTED ->
  startSession env s = {| effects := []; final := s; result := Ok tt |}.
Proof.
  intro H. unfold App.startSession, App.startSessionBegin, bind, get.
  destruct (status s); [contradiction H; reflexivity| | |]; reflexivity.
Qed.

(** From [DISCONNECTED], [startSession] never raises, keeps the message
    list, opens at most one session and ends [CONNECTING] or [ERROR]. *)
Lemma startSession_fresh (env : StartEnv) (s : State) :
  status s = DISCONNECTED ->
  let o := startSession env s in
  result o = Ok tt /\
  messages (final o) = messages s /\
  (List.length (filter opensSession (effects o)) <= 1)%nat /\
  status (final o) <> DISCONNECTED.
Proof.
  destruct s as [st ms ci co ac oc nx act sp mic scr no]. cbn [status].
  intros ->. destruct env as [[[|c k]|] []]; cbn;
    repeat split; try lia; discriminate.
Qed.

Lemma filter_stops (f : Effect -> bool) (l : list ObjRef) :
  (forall x, f (SourceStop x) = false) -> filter f (map SourceStop l) = [].
Proof.
  intro H. induction l as [|x r IH]; [reflexivity|].
  cbn. rewrite H. exact IH.
Qed.

Lemma handleMessage_acquires_nothing (clockNow : Q) (m : LiveServerMessage)
    (s : State) :
  filter acquires (effects (handleMessage clockNow m s)) = [].
Proof.
  destruct (malformed m) eqn:Hm;
    [rewrite handleMessage_thrown by exact Hm; reflexivity|].
  rewrite handleMessage_eq by exact Hm. cbv zeta. cbn [effects].
  rewrite filter_app, handleAudioOutput_eq, handleInterruptions_eq
    by exact Hm.
  cbv zeta.
  destruct (chunk m (afterTranscripts m s)) as [[ctx [b|]]|];
    destruct (interrupted m); cbn [effects filter acquires app];
    rewrite ?filter_stops; reflexivity.
Qed.

Lemma dispatch_started (env : StartEnv) (s : State) :
  dispatch (StartSession env) s = startSession env s.
Proof.
  unfold App.dispatch, try_catch. cbn [App.step].
  destruct (ConnectionStatus_eqb (status s) DISCONNECTED) eqn:E.
  - assert (H : status s = DISCONNECTED) by (destruct (status s); easy).
    pose proof (startSession_fresh env s H) as (R & _).
    destruct (startSession env s) as [e1 s1 r]. cbn in R. rewrite R.
    reflexivity.
  - rewrite startSession_guard; [reflexivity|].
    intro H. rewrite H in E. discriminate E.
Qed.

(** Only [startSession] creates a context, asks for the microphone or opens
    a session. *)
Lemma dispatch_acquires_nothing (e : Event) (s : State) :
  isStart e = false -> filter acquires (effects (dispatch e s)) = [].
Proof.
  destruct e as [rnd now r t|env| | |clockNow m| | |source]; intro H;
    try discriminate H.
  - unfold App.dispatch, try_catch. cbn [App.step]. unfold addMessage.
    destruct (negb (truthy (trim t))); reflexivity.
  - unfold App.dispatch, try_catch. cbn [App.step].
    destruct (stopSession_frame s) as (R & F & _).
    destruct (stopSession s) as [e1 s1 r1]. cbn in R, F. rewrite R. exact F.
  - destruct s as [st ms ci co [ac|] oc nx act sp mic scr no]; reflexivity.
  - pose proof (handleMessage_acquires_nothing clockNow m s) as F.
    destruct (malformed m) eqn:Hm.
    + rewrite dispatch_OnMessage_thrown by exact Hm. reflexivity.
    + rewrite dispatch_OnMessage by exact Hm. exact F.
  - reflexivity.
  - unfold App.dispatch, try_catch. cbn [App.step]. unfold onclose.
    destruct (stopSession_frame s) as (R & F & _).
    destruct (stopSession s) as [e1 s1 r1]. cbn in R, F. rewrite R. exact F.
  - reflexivity.
Qed.





(** C9 (amended). Once the status is [ERROR], [startSession] is the same
    silent no-op as in [CONNECTING] and [CONNECTED], with every environment;
    no other event creates a context, asks for the microphone or opens a
    session; a new attempt begins only after [stopSession] has brought the
    status back to [DISCONNECTED]: then [startSession], given an API key and
    the microphone, requests the microphone, opens a session and leaves the
    status [CONNECTING]. *)
Theorem retry_requires_reset :
  forall (env : StartEnv) (st : State),
    status st = ERROR ->
    startSession env st = {| effects := []; final := st; result := Ok tt |} /\
    (forall (e : Event) (s : State),
        isStart e = false -> filter acquires (effects (dispatch e s)) = []) /\
    status (final (stopSession st)) = DISCONNECTED /\
    (forall k, API_KEY env = Some k -> truthy k = true ->
               micGranted env = true ->
               let o := startSession env (final (stopSession st)) in
               result o = Ok tt /\
               status (final o) = CONNECTING /\
               In GetUserMedia (effects o) /\
               exists session, In (LiveConnect session) (effects o)).
Proof.
  intros env st Hs.
  split; [apply startSession_guard; rewrite Hs; discriminate|].
  split; [exact dispatch_acquires_nothing|].
  split; [apply (stopSession_frame st)|].
  intros k Hk Ht Hm. cbv zeta.
  destruct st as [s ms ci co ac oc nx act sp mic scr no].
  destruct env as [key granted]. cbn in Hk, Hm. subst key granted.
  destruct k as [|c k]; [discriminate Ht|].
  destruct ac, oc, mic, scr; cbn;
    (repeat split; [tauto | eexists; tauto]).
Qed.

(** ** The message list *)

Lemma truthy_trimStart (s : JSString) :
  truthy (trimStart s) = negb (blank s).
Proof.
  induction s as [|c r IH]; [reflexivity|].
  cbn. destruct (isWhiteSpace c); [exact IH|reflexivity].
Qed.

Lemma blank_trimStart (s : JSString) : blank (trimStart s) = blank s.
Proof.
  induction s as [|c r IH]; [reflexivity|].
  cbn. destruct (isWhiteSpace c) eqn:E; [exact IH|].
  cbn. rewrite E. reflexivity.
Qed.

Lemma blank_rev (s : JSString) : blank (rev s) = blank s.
Proof.
  unfold blank. induction s as [|c r IH]; [reflexivity|].
  cbn. rewrite forallb_app, IH. cbn.
  rewrite andb_true_r. apply andb_comm.
Qed.

Lemma truthy_rev (s : JSString) : truthy (rev s) = truthy s.
Proof.
  destruct s as [|c r]; [reflexivity|].
  cbn. destruct (rev r); reflexivity.
Qed.

(** [!text.trim()] holds exactly for a blank text. *)
Lemma trim_blank (s : JSString) : negb (truthy (trim s)) = blank s.
Proof.
  unfold trim, trimEnd.
  rewrite truthy_rev, truthy_trimStart, blank_rev, blank_trimStart.
  apply negb_involutive.
Qed.

Lemma addMessage_eq (rnd : JSString) (now : Z) (r : Role) (t : JSString)
    (s : State) :
  addMessage rnd now r t s =
  if blank t then {| effects := []; final := s; result := Ok tt |}
  else {| effects := [];
          final :=
            with_messages
              (messages s ++
                 [ {| id := rnd; role := r; text := t; timestamp := now |} ])
              s;
          result := Ok tt |}.
Proof.
  unfold addMessage. rewrite trim_blank. destruct (blank t); reflexivity.
Qed.

Lemma step_messages (e : Event) (s : State) :
  messages (final (step e s)) =
  match e with
  | AddMessage rnd now r t =>
      if blank t then messages s
      else messages s ++
             [ {| id := rnd; role := r; text := t; timestamp := now |} ]
  | _ => messages s
  end.
Proof.
  destruct e as [rnd now r t|env| | |clockNow m| | |source]; cbn [App.step].
  - rewrite addMessage_eq. destruct (blank t); reflexivity.
  - destruct (ConnectionStatus_eqb (status s) DISCONNECTED) eqn:E.
    + apply startSession_fresh. destruct (status s); easy.
    + rewrite startSession_guard; [reflexivity|].
      intro H. rewrite H in E. discriminate E.
  - apply (stopSession_frame s).
  - destruct s as [st ms ci co [ac|] oc nx act sp mic scr no]; reflexivity.
  - apply (handleMessage_frame clockNow m s).
  - reflexivity.
  - apply (stopSession_frame s).
  - reflexivity.
Qed.

(** C10. [addMessage] leaves the list as it is for a blank text and appends
    one entry otherwise; every event of the component (message handling with
    its turn-complete and interruption branches, [stopSession],
    [startSession], the callbacks, [addMessage]) keeps the existing entries
    in place and only appends entries whose text is not blank; so every run
    from the initial state yields a list without a blank entry. *)
Theorem history_append_only :
  (forall (rnd : JSString) (now : Z) (r : Role) (t : JSString) (st : State),
      messages (final (addMessage rnd now r t st)) =
      if blank t then messages st
      else messages st ++
             [ {| id := rnd; role := r; text := t; timestamp := now |} ])
  /\
  (forall (es : list Event) (st : State),
      exists added,
        messages (final (run es st)) = messages st ++ added /\
        Forall (fun m => blank (text m) = false) added)
  /\
  (forall es : list Event,
      Forall (fun m => blank (text m) = false)
        (messages (final (run es initialState)))).
Proof.
  assert (R : forall (es : list Event) (st : State),
             exists added,
               messages (final (run es st)) = messages st ++ added /\
               Forall (fun m => blank (text m) = false) added).
  { induction es as [|e r IH]; intro st.
    - exists []. split; [symmetry; apply app_nil_r|constructor].
    - rewrite run_cons by apply dispatch_ok. cbn [final].
      destruct (IH (final (dispatch e st))) as (added & E & F).
      rewrite E, dispatch_final, step_messages.
      destruct e as [rnd now ro t|env| | |clockNow m| | |source];
        try (exists added; split; [reflexivity|exact F]).
      destruct (blank t) eqn:B.
      + exists added. split; [reflexivity|exact F].
      + exists ({| id := rnd; role := ro; text := t; timestamp := now |}
                  :: added).
        split; [rewrite <- app_assoc; reflexivity|].
        constructor; [exact B|exact F]. }
  split; [|split; [exact R|]].
  - intros rnd now r t st. rewrite addMessage_eq.
    destruct (blank t); reflexivity.
  - intro es. destruct (R es initialState) as (added & E & F).
    rewrite E. exact F.
Qed.

(** ** Sequences of schedule calls *)

Lemma duration_nonneg (b : AudioBuffer.t) : 0 <= AudioBuffer.duration b.
Proof.
  unfold AudioBuffer.duration, Qle. cbn. lia.
Qed.

Lemma totalDuration_nonneg (l : list ScheduleCall) : 0 <= totalDuration l.
Proof.
  induction l as [|c r IH]; cbn; [lra|].
  pose proof (duration_nonneg (buffer c)). lra.
Qed.

Lemma cursorAfter_app (c : Q) (l1 l2 : list ScheduleCall) :
  cursorAfter c (l1 ++ l2) = cursorAfter (cursorAfter c l1) l2.
Proof.
  revert c. induction l1 as [|x r IH]; intro c; [reflexivity|].
  cbn. apply IH.
Qed.

Lemma cursorAfter_ge (l : list ScheduleCall) :
  forall c, c + totalDuration l <= cursorAfter c l.
Proof.
  induction l as [|x r IH]; intro c; cbn; [lra|].
  pose proof (IH (Qmax c (clock x) + AudioBuffer.duration (buffer x))).
  pose proof (Q.le_max_l c (clock x)). lra.
Qed.

Lemma cursorAfter_punctual (l : list ScheduleCall) :
  forall c, punctual c l -> cursorAfter c l == c + totalDuration l.
Proof.
  induction l as [|x r IH]; intros c H; cbn; [lra|].
  destruct H as [Hx Hr]. rewrite (IH _ Hr).
  pose proof (Q.max_l c (clock x) Hx). lra.
Qed.

Lemma punctual_prefixes (l : list ScheduleCall) :
  forall c,
    (forall pre x post, l = pre ++ x :: post -> clock x <= cursorAfter c pre) ->
    punctual c l.
Proof.
  induction l as [|x r IH]; intros c H; [exact I|].
  split.
  - apply (H [] x r). reflexivity.
  - apply IH. intros pre y post E.
    apply (H (x :: pre) y post). rewrite E. reflexivity.
Qed.

(** The cursor left by a run of well-formed calls follows the recurrence. *)
Lemma run_calls (ctx : ObjRef) (l : list ScheduleCall) :
  Forall (wellFormed decode decodeAudioData ctx) l ->
  forall s,
    outAudioContextRef s = Some ctx ->
    nextStartTimeRef (final (run (callEvents l) s))
    = cursorAfter (nextStartTimeRef s) l.
Proof.
  induction 1 as [|x r [Hx Hi] Hr IH]; intros s Hc; [reflexivity|].
  cbn [callEvents map]. rewrite run_cons by apply dispatch_ok.
  cbn [final].
  rewrite dispatch_OnMessage by exact (carries_readable ctx _ _ Hx).
  destruct (handleMessage_schedules (clock x) (payload x) s ctx (buffer x)
              Hc Hx Hi) as (_ & N & _ & O & _).
  fold (callEvents r). rewrite (IH _ O), N. reflexivity.
Qed.

(** C7 (amended). For a sequence of schedule calls with decodable payloads,
    no interruption and an output context: the cursor never decreases along
    the sequence; after all calls it is at least the first start time,
    [max(nextStartTime, clock of the first call)], plus the sum of the
    durations; and it equals the clock of the first call plus the sum of the
    durations when the cursor did not exceed that clock at the first call
    and every later call arrives no later than the cursor left by the calls
    before it. *)
Theorem cursor_monotone_and_sum :
  forall (st : State) (ctx : ObjRef) (calls : list ScheduleCall),
    outAudioContextRef st = Some ctx ->
    Forall (wellFormed decode decodeAudioData ctx) calls ->
    let cursorOf l := nextStartTimeRef (final (run (callEvents l) st)) in
    (forall pre post, calls = pre ++ post -> cursorOf pre <= cursorOf calls) /\
    (forall first rest,
        calls = first :: rest ->
        Qmax (nextStartTimeRef st) (clock first) + totalDuration calls
        <= cursorOf calls) /\
    (forall first rest,
        calls = first :: rest ->
        nextStartTimeRef st <= clock first ->
        (forall pre c post,
            calls = pre ++ c :: post -> pre <> [] -> clock c <= cursorOf pre) ->
        cursorOf calls == clock first + totalDuration calls).
Proof.
  intros st ctx calls Hc Hw. cbv beta zeta.
  assert (P : forall pre post, calls = pre ++ post ->
                nextStartTimeRef (final (run (callEvents pre) st))
                = cursorAfter (nextStartTimeRef st) pre).
  { intros pre post E. apply (run_calls ctx); [|exact Hc].
    rewrite E in Hw. apply Forall_app in Hw. apply Hw. }
  rewrite (run_calls ctx calls Hw st Hc).
  split; [|split].
  - intros pre post E. rewrite (P pre post E), E, cursorAfter_app.
    pose proof (cursorAfter_ge post (cursorAfter (nextStartTimeRef st) pre)).
    pose proof (totalDuration_nonneg post). lra.
  - intros first rest E. rewrite E. cbn [cursorAfter totalDuration].
    pose proof (cursorAfter_ge rest
                  (Qmax (nextStartTimeRef st) (clock first)
                   + AudioBuffer.duration (buffer first))). lra.
  - intros first rest E H0 Hp. rewrite E. cbn [cursorAfter totalDuration].
    rewrite cursorAfter_punctual.
    + pose proof (Q.max_r (nextStartTimeRef st) (clock first) H0). lra.
    + apply punctual_prefixes. intros pre x post Er.
      assert (Ec : calls = (first :: pre) ++ x :: post)
        by (rewrite E, Er; reflexivity).
      pose proof (Hp (first :: pre) x post Ec) as Hx.
      rewrite (P _ _ Ec) in Hx. apply Hx. discriminate.
Qed.

End Properties.

(** * Concrete scenarios *)

(** Three half-second chunks arriving at clock 1, 5/4 and 7/4 on a freshly
    connected session start at 1, 3/2 and 2; a quarter-second chunk arriving
    at clock 1 starts at 1 and moves the cursor to 1 + 1/4. *)
Lemma schedule_start_and_cursor_witness :
  (let o := handleMessage Sample.decode Sample.decodeAudioData Sample.stopRaises
              1 (audioMessage (Sample.pcm 6000)) Sample.connected in
   startTimes (effects o) = [Qmax 0 1] /\
   nextStartTimeRef (final o) = (Qmax 0 1 + (6000 # 24000))%Q)
  /\
  Forall2 Qeq
    (startTimes
       (effects
          (run Sample.decode Sample.decodeAudioData Sample.stopRaises
             [OnMessage 1 (audioMessage (Sample.pcm 12000));
              OnMessage (5 # 4) (audioMessage (Sample.pcm 12000));
              OnMessage (7 # 4) (audioMessage (Sample.pcm 12000))]
             Sample.connected)))
    [1; 3 # 2; 2].
Proof.
  pose proof (schedule_start_and_cursor Sample.decode Sample.decodeAudioData
                Sample.stopRaises) as [G E].
  assert (D : Sample.decode (Sample.pcm 6000) = Some (Sample.silence 6000))
    by evaluate.
  assert (B : Sample.decodeAudioData (Sample.silence 6000) 1%nat
                24000%positive 1%positive
              = Some {| AudioBuffer.length := 6000;
                        AudioBuffer.sampleRate := 24000 |})
    by evaluate.
  assert (C : carries Sample.decode Sample.decodeAudioData 1%nat
                (audioMessage (Sample.pcm 12000))
                {| AudioBuffer.length := 12000;
                   AudioBuffer.sampleRate := 24000 |})
    by (exists (Sample.pcm 12000); repeat split; evaluate).
  split.
  - destruct (G Sample.connected 1 (audioMessage (Sample.pcm 6000)) 1%nat
                (Sample.pcm 6000) (Sample.silence 6000)
                {| AudioBuffer.length := 6000;
                   AudioBuffer.sampleRate := 24000 |}
                eq_refl eq_refl eq_refl D B)
      as (_ & _ & H1 & H2).
    split; [exact H1 | exact (H2 eq_refl)].
  - apply (E Sample.connected 1%nat
             (audioMessage (Sample.pcm 12000))
             (audioMessage (Sample.pcm 12000))
             (audioMessage (Sample.pcm 12000))
             {| AudioBuffer.length := 12000; AudioBuffer.sampleRate := 24000 |}
             {| AudioBuffer.length := 12000; AudioBuffer.sampleRate := 24000 |}
             {| AudioBuffer.length := 12000; AudioBuffer.sampleRate := 24000 |}
             (5 # 4) (7 # 4) eq_refl eq_refl C C C eq_refl eq_refl eq_refl);
      evaluate.
Defined.

(** C1 fails as stated: three half-second buffers scheduled from cursor 0
    with the first call at clock 1 start at 1, 3 and 7/2 when the second and
    the third call arrive at clock 3. *)
Lemma late_calls_shift_starts :
  let b := {| AudioBuffer.length := 12000; AudioBuffer.sampleRate := 24000 |} in
  let m := audioMessage (Sample.pcm 12000) in
  let starts :=
    startTimes
      (effects
         (run Sample.decode Sample.decodeAudioData Sample.stopRaises
            [OnMessage 1 m; OnMessage 3 m; OnMessage 3 m] Sample.connected)) in
  nextStartTimeRef Sample.connected == 0 /\
  carries Sample.decode Sample.decodeAudioData 1%nat m b /\
  AudioBuffer.duration b == 1 # 2 /\
  Forall2 Qeq starts [1; 3; 7 # 2] /\
  ~ Forall2 Qeq starts [1; 3 # 2; 2].
Proof.
  cbv zeta. split; [reflexivity|].
  split; [exists (Sample.pcm 12000); repeat split; evaluate|].
  split; [reflexivity|]. split.
  - vm_compute. repeat constructor.
  - intro H. vm_compute in H.
    inversion H as [|x1 y1 l1 r1 _ Hr]. inversion Hr as [|x2 y2 l2 r2 Hq _].
    discriminate Hq.
Qed.

(** An interruption on a session with two scheduled sources, in a browser
    whose [stop()] raises on every source; and the same signal in a message
    whose [modelTurn] has no [parts]. *)
Lemma interruption_clears_playback_witness :
  (interrupted interruptedMessage = true /\
   malformed interruptedMessage = false /\
   let o := handleMessage Sample.decode Sample.decodeAudioData
              Sample.stopRaises 2 interruptedMessage Sample.playing in
   result o = Ok tt /\
   (forall source, In source (activeSourcesRef Sample.playing) ->
                   In source (stopped (effects o))) /\
   activeSourcesRef (final o) = [] /\
   nextStartTimeRef (final o) = 0 /\
   handleMessage Sample.decode Sample.decodeAudioData Sample.stopRaises
     2 interruptedMessage (final o) =
     {| effects := []; final := final o; result := Ok tt |})
  /\
  (interrupted Sample.interruptedWithoutParts = true /\
   malformed Sample.interruptedWithoutParts = true /\
   let o := handleMessage Sample.decode Sample.decodeAudioData
              Sample.stopRaises 2 Sample.interruptedWithoutParts
              Sample.playing in
   result o = Throw TypeError /\
   stopped (effects o) = [] /\
   activeSourcesRef (final o) = activeSourcesRef Sample.playing /\
   nextStartTimeRef (final o) = nextStartTimeRef Sample.playing).
Proof.
  pose proof (interruption_clears_playback Sample.decode
                Sample.decodeAudioData Sample.stopRaises) as [G B].
  split.
  - split; [reflexivity|]. split; [reflexivity|].
    exact (G Sample.playing 2 interruptedMessage eq_refl eq_refl).
  - split; [reflexivity|]. split; [reflexivity|].
    exact (B Sample.playing 2 Sample.interruptedWithoutParts eq_refl eq_refl).
Defined.

(** C2 fails on the code: while two sources are scheduled and the cursor is
    2, a message with the interruption signal and a [modelTurn] without
    [parts] stops no source and leaves both in the set and the cursor
    at 2. *)
Lemma interruption_lost_without_parts :
  let m := Sample.interruptedWithoutParts in
  let o := handleMessage Sample.decode Sample.decodeAudioData Sample.stopRaises
             2 m Sample.playing in
  interrupted m = true /\
  activeSourcesRef Sample.playing = [6%nat; 7%nat] /\
  result o = Throw TypeError /\
  effects o = [] /\
  activeSourcesRef (final o) = [6%nat; 7%nat] /\
  nextStartTimeRef (final o) == 2 /\
  effects (dispatch Sample.decode Sample.decodeAudioData Sample.stopRaises
             (OnMessage 2 m) Sample.playing) = [ConsoleError "Uncaught"].
Proof.
  cbv zeta. repeat split; evaluate.
Qed.



(** C4 fails as stated: a truncated payload arriving at clock 1 on a session
    whose cursor is 0 moves the cursor to 1. *)
Lemma decode_failure_moves_cursor :
  let o := handleMessage Sample.decode Sample.decodeAudioData Sample.stopRaises
             1 (audioMessage Sample.truncated) Sample.connected in
  decoded Sample.decode Sample.decodeAudioData 1%nat Sample.truncated = None /\
  nextStartTimeRef Sample.connected == 0 /\
  nextStartTimeRef (final o) == 1 /\
  ~ nextStartTimeRef (final o) == nextStartTimeRef Sample.connected.
Proof.
  cbv zeta. repeat split; evaluate.
Qed.

(** A truncated payload arriving at clock 3/2 while two chunks are scheduled
    and the cursor is 2. *)
Lemma decode_failure_drops_chunk_witness :
  let st := Sample.playing in
  let m := audioMessage Sample.truncated in
  let oa := handleAudioOutput Sample.decode Sample.decodeAudioData
              (3 # 2) m st in
  let o := handleMessage Sample.decode Sample.decodeAudioData Sample.stopRaises
             (3 # 2) m st in
  (outAudioContextRef st = Some 1%nat /\
   readBase64Audio m = Ok (Some Sample.truncated) /\
   truthy Sample.truncated = true /\
   decoded Sample.decode Sample.decodeAudioData 1%nat Sample.truncated = None)
  /\
  result oa = Ok tt /\
  effects oa = [ConsoleError "Error playing audio chunk:"] /\
  activeSourcesRef (final oa) = activeSourcesRef st /\
  nextStartTimeRef (final oa) = Qmax (nextStartTimeRef st) (3 # 2) /\
  (3 # 2 <= nextStartTimeRef st ->
   nextStartTimeRef (final oa) == nextStartTimeRef st) /\
  (forall later, 3 # 2 <= later ->
     Qmax (nextStartTimeRef (final oa)) later
     == Qmax (nextStartTimeRef st) later) /\
  result o = Ok tt /\
  startTimes (effects o) = [] /\
  status (final o) = status st /\
  sessionPromiseRef (final o) = sessionPromiseRef st /\
  outAudioContextRef (final o) = outAudioContextRef st /\
  effects o =
    ConsoleError "Error playing audio chunk:"
    :: (if interrupted m then map SourceStop (activeSourcesRef st) else []) /\
  activeSourcesRef (final o) =
    (if interrupted m then [] else activeSourcesRef st) /\
  nextStartTimeRef (final o) =
    (if interrupted m then 0 else Qmax (nextStartTimeRef st) (3 # 2)).
Proof.
  cbv zeta. split; [repeat split; reflexivity|].
  apply (decode_failure_drops_chunk Sample.decode Sample.decodeAudioData
           Sample.stopRaises Sample.playing (3 # 2)
           (audioMessage Sample.truncated) 1%nat Sample.truncated);
    reflexivity.
Defined.

(** C5, what the code does: [stopSession] empties the two transcript
    accumulators but leaves the cursor and the active set as they were.
    After two half-second chunks the cursor is 2 and is still 2 after
    [stopSession]; in the session started next, a chunk arriving when the
    new output clock reads 0 is started at 2. *)
Theorem stopSession_leaves_cursor :
  (forall st : State,
      let o := stopSession st in
      currentInputText (final o) = [] /\
      currentOutputText (final o) = [] /\
      nextStartTimeRef (final o) = nextStartTimeRef st /\
      activeSourcesRef (final o) = activeSourcesRef st)
  /\
  (nextStartTimeRef (final (stopSession Sample.playing)) == 2 /\
   ~ nextStartTimeRef (final (stopSession Sample.playing)) == 0 /\
   activeSourcesRef (final (stopSession Sample.playing)) <> [])
  /\
  Forall2 Qeq
    (startTimes
       (effects
          (run Sample.decode Sample.decodeAudioData Sample.stopRaises
             [StopSession; StartSession Sample.granted; OnOpen;
              OnMessage 0 (audioMessage (Sample.pcm 12000))]
             Sample.playing)))
    [2].
Proof.
  split; [|split].
  - intro st. destruct (stopSession_frame st) as (_ & _ & _ & _ & N & A & I & O).
    cbv zeta. repeat split; assumption.
  - repeat split; evaluate.
  - vm_compute. repeat constructor.
Qed.



(** C9 fails as stated: after the microphone has been refused the status is
    [ERROR], and a fresh [startSession] with the microphone granted begins
    nothing: no call is made and the status stays [ERROR]. *)
Lemma start_after_error_is_noop :
  let failed := final (startSession Sample.denied initialState) in
  let o := startSession Sample.granted failed in
  status failed = ERROR /\
  ~ beginsConnectionAttempt o /\
  status (final o) = ERROR.
Proof.
  cbv zeta. unfold beginsConnectionAttempt.
  repeat split; evaluate.
Qed.

(** After a refused microphone: [startSession] does nothing; after
    [stopSession], [startSession] with the microphone granted opens a
    session. *)
Lemma retry_requires_reset_witness :
  let failed := final (startSession Sample.denied initialState) in
  status failed = ERROR /\
  startSession Sample.granted failed
    = {| effects := []; final := failed; result := Ok tt |} /\
  status (final (stopSession failed)) = DISCONNECTED /\
  let o := startSession Sample.granted (final (stopSession failed)) in
  result o = Ok tt /\
  status (final o) = CONNECTING /\
  In GetUserMedia (effects o) /\
  exists session, In (LiveConnect session) (effects o).
Proof.
  cbv zeta.
  destruct (retry_requires_reset Sample.decode Sample.decodeAudioData
              Sample.stopRaises Sample.granted
              (final (startSession Sample.denied initialState)) eq_refl)
    as (N & _ & D & S).
  split; [reflexivity|]. split; [exact N|]. split; [exact D|].
  apply (S [65%N]); reflexivity.
Defined.

(** C7 fails as stated: two chunks of two samples, the first arriving at
    clock 1 and the second at clock 3, after the first has played out, leave
    the cursor at 3 + 2/24000, not at 1 + 4/24000. *)
Lemma late_chunk_breaks_sum :
  let calls := [Sample.call 1 2; Sample.call 3 2] in
  let cursor :=
    nextStartTimeRef
      (final (run Sample.decode Sample.decodeAudioData Sample.stopRaises
                (callEvents calls) Sample.connected)) in
  outAudioContextRef Sample.connected = Some 1%nat /\
  Forall (wellFormed Sample.decode Sample.decodeAudioData 1%nat) calls /\
  cursor == 3 + (2 # 24000) /\
  ~ cursor == 1 + totalDuration calls.
Proof.
  cbv zeta. split; [reflexivity|]. split; [|split].
  - constructor; [carried (Sample.pcm 2)|].
    constructor; [carried (Sample.pcm 2)|constructor].
  - evaluate.
  - evaluate.
Qed.

(** Three half-second chunks arriving at clock 1, 5/4 and 7/4 on the freshly
    connected session: the cursor never decreases and ends at 1 + 3/2. *)
Lemma cursor_monotone_and_sum_witness :
  let calls :=
    [Sample.call 1 12000; Sample.call (5 # 4) 12000;
     Sample.call (7 # 4) 12000] in
  let cursorOf l :=
    nextStartTimeRef
      (final (run Sample.decode Sample.decodeAudioData Sample.stopRaises
                (callEvents l) Sample.connected)) in
  outAudioContextRef Sample.connected = Some 1%nat /\
  Forall (wellFormed Sample.decode Sample.decodeAudioData 1%nat) calls /\
  (forall pre post, calls = pre ++ post -> cursorOf pre <= cursorOf calls) /\
  Qmax 0 1 + totalDuration calls <= cursorOf calls /\
  cursorOf calls == 1 + totalDuration calls.
Proof.
  cbv beta zeta.
  assert (W : Forall (wellFormed Sample.decode Sample.decodeAudioData 1%nat)
                [Sample.call 1 12000; Sample.call (5 # 4) 12000;
                 Sample.call (7 # 4) 12000]).
  { constructor; [carried (Sample.pcm 12000)|].
    constructor; [carried (Sample.pcm 12000)|].
    constructor; [carried (Sample.pcm 12000)|constructor]. }
  destruct (cursor_monotone_and_sum Sample.decode Sample.decodeAudioData
              Sample.stopRaises Sample.connected 1%nat _ eq_refl W)
    as (M & L & E).
  split; [reflexivity|]. split; [exact W|]. split; [exact M|].
  split; [exact (L _ _ eq_refl)|].
  apply (E _ _ eq_refl).
  - evaluate.
  - intros pre c post Hc Hn.
    destruct pre as [|x1 [|x2 [|x3 pre]]].
    + contradiction Hn; reflexivity.
    + injection Hc as <- <- _. evaluate.
    + injection Hc as <- <- <- _. evaluate.
    + injection Hc as _ _ _ Hc. destruct pre; discriminate Hc.
Defined.

(** * Further properties of the component *)

Section Coverage.

Variable decode : JSString -> option (list N).
Variable decodeAudioData :
  list N -> ObjRef -> positive -> positive -> option AudioBuffer.t.
Variable stopRaises : ObjRef -> bool.

Local Abbreviation handleAudioOutput :=
  (handleAudioOutput decode decodeAudioData).
Local Abbreviation handleInterruptions := (handleInterruptions stopRaises).
Local Abbreviation handleMessage :=
  (handleMessage decode decodeAudioData stopRaises).
Local Abbreviation step := (step decode decodeAudioData stopRaises).
Local Abbreviation dispatch := (dispatch decode decodeAudioData stopRaises).
Local Abbreviation run := (run decode decodeAudioData stopRaises).
Local Abbreviation chunk := (chunk decode decodeAudioData).
Local Abbreviation startSessionAround :=
  (startSessionAround decode decodeAudioData stopRaises).

(** ** [startSession] by environment *)

(** X1. From [DISCONNECTED], [startSession] without an API key (undefined or
    the empty string) ends in [ERROR]: it logs the failure and nothing else
    is called or written; no audio context is created and the microphone is
    not requested. *)
Theorem startSession_without_key :
  forall (env : StartEnv) (st : State),
    status st = DISCONNECTED ->
    keyPresent env = false ->
    startSession env st =
      {| effects := [ConsoleError "Failed to start session:"];
         final := with_status ERROR st;
         result := Ok tt |}.
Proof.
  intros [key mic] [s ms ci co ac oc nx act sp mi scr no]. cbn.
  intros -> Hk. unfold keyPresent in Hk. cbn in Hk.
  destruct key as [[|c k]|]; try discriminate Hk; reflexivity.
Qed.

(** X2. From [DISCONNECTED], with an API key and the microphone refused,
    [startSession] ends in [ERROR] after it has created the two audio
    contexts (16 kHz and 24 kHz): both stay referenced and neither is
    closed; no stream is stored and no session is opened. *)
Theorem startSession_microphone_refused :
  forall (env : StartEnv) (st : State),
    status st = DISCONNECTED ->
    keyPresent env = true ->
    micGranted env = false ->
    let o := startSession env st in
    let n := nextObject st in
    effects o = [NewAudioContext n 16000; NewAudioContext (S n) 24000;
                 GetUserMedia; ConsoleError "Failed to start session:"] /\
    result o = Ok tt /\
    status (final o) = ERROR /\
    audioContextRef (final o) = Some n /\
    outAudioContextRef (final o) = Some (S n) /\
    micStreamRef (final o) = micStreamRef st /\
    sessionPromiseRef (final o) = sessionPromiseRef st /\
    scriptProcessorRef (final o) = scriptProcessorRef st.
Proof.
  intros [key mic] [s ms ci co ac oc nx act sp mi scr no]. cbn.
  intros -> Hk ->. unfold keyPresent in Hk. cbn in Hk.
  destruct key as [[|c k]|]; try discriminate Hk.
  cbn. repeat split.
Qed.

(** X3. From [DISCONNECTED], with an API key and the microphone granted,
    [startSession] creates the two contexts, requests the microphone and
    opens one session, in this order, stores four distinct objects in the
    context, stream and session refs, and leaves the status [CONNECTING]:
    [CONNECTED] is not set before the open callback, and no script processor
    exists yet. *)
Theorem startSession_connecting :
  forall (env : StartEnv) (st : State),
    status st = DISCONNECTED ->
    keyPresent env = true ->
    micGranted env = true ->
    let o := startSession env st in
    let n := nextObject st in
    effects o = [NewAudioContext n 16000; NewAudioContext (S n) 24000;
                 GetUserMedia; LiveConnect (S (S (S n)))] /\
    result o = Ok tt /\
    status (final o) = CONNECTING /\
    audioContextRef (final o) = Some n /\
    outAudioContextRef (final o) = Some (S n) /\
    micStreamRef (final o) = Some (S (S n)) /\
    sessionPromiseRef (final o) = Some (S (S (S n))) /\
    scriptProcessorRef (final o) = scriptProcessorRef st.
Proof.
  intros [key mic] [s ms ci co ac oc nx act sp mi scr no]. cbn.
  intros -> Hk ->. unfold keyPresent in Hk. cbn in Hk.
  destruct key as [[|c k]|]; try discriminate Hk.
  cbn. repeat split.
Qed.

(** ** [stopSession] *)

(** X4. From any state, [stopSession] makes one release call for each
    resource that is referenced (stream, script processor, input context,
    output context, in this order) and no other call; afterwards no device,
    context or session is referenced, and the message list is as before. *)
Theorem stopSession_releases_all :
  forall st : State,
    let o := stopSession st in
    effects o =
      ofOption TracksStop (micStreamRef st) ++
      ofOption ProcessorDisconnect (scriptProcessorRef st) ++
      ofOption ContextClose (audioContextRef st) ++
      ofOption ContextClose (outAudioContextRef st) /\
    idle (final o) /\
    messages (final o) = messages st.
Proof.
  intros [s ms ci co ac oc nx act sp mi scr no].
  destruct ac, oc, mi, scr; repeat split.
Qed.

(** ** The connection state machine *)



(** X6. A handler raises in two cases only. The open callback raises
    exactly when no input context is referenced, as after [stopSession]: it
    has then already set the status [CONNECTED], creates no script
    processor, and the next [startSession] is refused. The message handler
    raises exactly when the message has a [modelTurn] without [parts]. *)
Theorem handlers_that_raise :
  (forall (e : Event) (st : State),
      result (step e st) = Ok tt \/
      (e = OnOpen /\ audioContextRef st = None /\
       result (step e st) = Throw TypeError) \/
      (exists clockNow m,
          e = OnMessage clockNow m /\ malformed m = true /\
          result (step e st) = Throw TypeError)) /\
  (forall st : State,
      audioContextRef st <> None -> result (onopen st) = Ok tt) /\
  (forall (clockNow : Q) (m : LiveServerMessage) (st : State),
      result (handleMessage clockNow m st) =
      if malformed m then Throw TypeError else Ok tt) /\
  (forall (env : StartEnv) (st : State),
      let stopped := final (stopSession st) in
      onopen stopped =
        {| effects := []; final := with_status CONNECTED stopped;
           result := Throw TypeError |} /\
      startSession env (with_status CONNECTED stopped) =
        {| effects := []; final := with_status CONNECTED stopped;
           result := Ok tt |}).
Proof.
  assert (M : forall (clockNow : Q) (m : LiveServerMessage) (st : State),
             result (handleMessage clockNow m st) =
             if malformed m then Throw TypeError else Ok tt).
  { intros clockNow m st. destruct (malformed m) eqn:Hm.
    - rewrite (handleMessage_thrown decode decodeAudioData stopRaises)
        by exact Hm.
      reflexivity.
    - rewrite (handleMessage_eq decode decodeAudioData stopRaises)
        by exact Hm.
      reflexivity. }
  split; [|split; [|split; [exact M|]]].
  - intros e st.
    destruct e as [rnd now r t|env| | |clockNow m| | |source];
      cbn [App.step].
    + left. rewrite addMessage_eq. destruct (blank t); reflexivity.
    + left. destruct (ConnectionStatus_eqb (status st) DISCONNECTED) eqn:E.
      * apply startSession_fresh. destruct (status st); easy.
      * rewrite startSession_guard; [reflexivity|].
        intro H. rewrite H in E. discriminate E.
    + left. apply (stopSession_frame st).
    + destruct st as [s ms ci co [ac|] oc nx act sp mi scr no].
      * left. reflexivity.
      * right. left. repeat split.
    + rewrite M. destruct (malformed m) eqn:Hm.
      * right. right. exists clockNow, m. repeat split. exact Hm.
      * left. reflexivity.
    + left. reflexivity.
    + left. apply (stopSession_frame st).
    + left. reflexivity.
  - intros [s ms ci co [ac|] oc nx act sp mi scr no] H;
      [reflexivity|contradiction H; reflexivity].
  - intros env [s ms ci co ac oc nx act sp mi scr no]. cbv zeta.
    destruct ac, oc, mi, scr; split; vm_compute; reflexivity.
Qed.

Lemma interruption_cleared (clockNow : Q) (m : LiveServerMessage) (s : State) :
  malformed m = false ->
  interrupted m = true ->
  activeSourcesRef (final (handleMessage clockNow m s)) = [] /\
  nextStartTimeRef (final (handleMessage clockNow m s)) = 0.
Proof.
  intros Hm Hi.
  rewrite (handleMessage_eq decode decodeAudioData stopRaises) by exact Hm.
  cbv zeta. rewrite handleInterruptions_eq, Hi. split; reflexivity.
Qed.

(** ** Audio contexts created and closed *)

Lemma openContexts_app (l1 l2 : list Effect) :
  forall open,
    openContexts open (l1 ++ l2) = openContexts (openContexts open l1) l2.
Proof.
  induction l1 as [|e r IH]; intro open; [reflexivity|].
  destruct e; cbn; apply IH.
Qed.

Lemma openContexts_stops (open l : list ObjRef) :
  openContexts open (map SourceStop l) = open.
Proof. induction l as [|x r IH]; [reflexivity|exact IH]. Qed.

Lemma handleMessage_opens_nothing (clockNow : Q) (m : LiveServerMessage)
    (s : State) (open : list ObjRef) :
  openContexts open (effects (handleMessage clockNow m s)) = open.
Proof.
  destruct (malformed m) eqn:Hm.
  { rewrite (handleMessage_thrown decode decodeAudioData stopRaises)
      by exact Hm.
    reflexivity. }
  rewrite (handleMessage_eq decode decodeAudioData stopRaises) by exact Hm.
  cbv zeta. cbn [effects].
  rewrite openContexts_app, handleAudioOutput_eq, handleInterruptions_eq
    by exact Hm.
  cbv zeta.
  destruct (chunk m (afterTranscripts m s)) as [[ctx [b|]]|];
    destruct (interrupted m); cbn [effects openContexts];
    rewrite ?openContexts_stops; reflexivity.
Qed.

Lemma dispatch_opens (e : Event) (s : State) (open : list ObjRef) :
  openContexts open (effects (dispatch e s))
  = openContexts open (effects (step e s)).
Proof.
  unfold App.dispatch, try_catch, emit.
  destruct (step e s) as [e1 s1 [[]|x]]; cbn [effects]; [reflexivity|].
  rewrite openContexts_app. reflexivity.
Qed.

(** The contexts open are the ones referenced, and nothing is referenced
    while the status is [DISCONNECTED]: kept by every event. *)
Lemma dispatch_contexts (e : Event) (s : State) (open : list ObjRef) :
  open = heldContexts s /\ (status s = DISCONNECTED -> idle s) ->
  openContexts open (effects (dispatch e s))
    = heldContexts (final (dispatch e s)) /\
  (status (final (dispatch e s)) = DISCONNECTED ->
   idle (final (dispatch e s))).
Proof.
  intros [Ho Hi]. rewrite dispatch_opens, dispatch_final. subst open.
  destruct e as [rnd now r t|env| | |clockNow m| | |source];
    cbn [App.step].
  - rewrite addMessage_eq. destruct (blank t); split; try reflexivity;
      exact Hi.
  - destruct (ConnectionStatus_eqb (status s) DISCONNECTED) eqn:E.
    + assert (H : status s = DISCONNECTED) by (destruct (status s); easy).
      specialize (Hi H).
      destruct s as [st ms ci co ac oc nx act sp mi scr no].
      unfold idle in Hi. cbn in Hi, H.
      destruct Hi as (-> & -> & -> & -> & ->). subst st.
      destruct env as [[[|c k]|] []]; split; try reflexivity;
        intro D; discriminate D.
    + rewrite startSession_guard
        by (intro H; rewrite H in E; discriminate E).
      split; [reflexivity|exact Hi].
  - destruct s as [st ms ci co ac oc nx act sp mi scr no].
    destruct ac as [a|], oc as [b|], mi, scr; cbn;
      rewrite ?Nat.eqb_refl; cbn;
      try (destruct (Nat.eqb a b); cbn; rewrite ?Nat.eqb_refl; cbn);
      repeat split.
  - destruct s as [st ms ci co [ac|] oc nx act sp mi scr no];
      split; try reflexivity; intro D; discriminate D.
  - rewrite handleMessage_opens_nothing.
    destruct (handleMessage_frame decode decodeAudioData stopRaises
                clockNow m s) as (F1 & _ & F3 & F4 & F5 & F6 & F7).
    unfold heldContexts, idle. rewrite F1, F3, F4, F5, F6, F7.
    split; [reflexivity|exact Hi].
  - split; [reflexivity|intro D; discriminate D].
  - unfold onclose.
    destruct s as [st ms ci co ac oc nx act sp mi scr no].
    destruct ac as [a|], oc as [b|], mi, scr; cbn;
      rewrite ?Nat.eqb_refl; cbn;
      try (destruct (Nat.eqb a b); cbn; rewrite ?Nat.eqb_refl; cbn);
      repeat split.
  - split; [reflexivity|exact Hi].
Qed.

Lemma run_contexts (es : list Event) :
  forall (s : State) (open : list ObjRef),
    open = heldContexts s /\ (status s = DISCONNECTED -> idle s) ->
    openContexts open (effects (run es s)) = heldContexts (final (run es s)) /\
    (status (final (run es s)) = DISCONNECTED -> idle (final (run es s))).
Proof.
  induction es as [|e r IH]; intros s open H; [exact H|].
  rewrite run_cons by apply dispatch_ok. cbn [effects final].
  rewrite openContexts_app. apply IH. apply dispatch_contexts. exact H.
Qed.

(** X7. No audio context leaks: after any sequence of events from the
    initial state, the contexts created and not yet closed are exactly the
    ones the two context refs hold; when the status is [DISCONNECTED] none
    is open. *)
Theorem no_context_leak :
  forall es : list Event,
    let o := run es initialState in
    openContexts [] (effects o) = heldContexts (final o) /\
    (status (final o) = DISCONNECTED -> openContexts [] (effects o) = []).
Proof.
  intro es. cbv zeta.
  destruct (run_contexts es initialState [])
    as [Ho Hi]; [split; [reflexivity|intros _; repeat split]|].
  split; [exact Ho|]. intro D. rewrite Ho.
  destruct (Hi D) as (Ha & Hb & _). unfold heldContexts.
  rewrite Ha, Hb. reflexivity.
Qed.

(** X8. [startSession] does not read the status again after
    [await getUserMedia]. With no event handled during the suspension the
    call is the undisturbed one. When [stopSession] runs while the call is
    suspended, the call resumes on a component that is [DISCONNECTED] and
    references nothing. With the microphone granted it stores the stream,
    opens a session and stores it, while the status stays [DISCONNECTED]
    and no audio context is referenced, so that the open callback of that
    session raises; with the microphone refused it logs the failure and
    sets [ERROR]. *)
Theorem stop_during_microphone_request :
  forall (env : StartEnv) (st : State),
    status st = DISCONNECTED ->
    keyPresent env = true ->
    let begun := startSessionBegin env st in
    let halted := stopSession (final begun) in
    let resumed := startSessionResume env (final halted) in
    let n := nextObject st in
    startSessionAround env [] st = startSession env st /\
    startSessionAround env [StopSession] st =
      {| effects := effects begun ++ effects halted ++ effects resumed;
         final := final resumed;
         result := Ok tt |} /\
    result begun = Ok true /\
    status (final begun) = CONNECTING /\
    status (final halted) = DISCONNECTED /\
    idle (final halted) /\
    audioContextRef (final resumed) = None /\
    outAudioContextRef (final resumed) = None /\
    (micGranted env = true ->
     effects resumed = [LiveConnect (S (S (S n)))] /\
     status (final resumed) = DISCONNECTED /\
     micStreamRef (final resumed) = Some (S (S n)) /\
     sessionPromiseRef (final resumed) = Some (S (S (S n))) /\
     result (onopen (final resumed)) = Throw TypeError) /\
    (micGranted env = false ->
     effects resumed = [ConsoleError "Failed to start session:"] /\
     status (final resumed) = ERROR /\
     micStreamRef (final resumed) = None /\
     sessionPromiseRef (final resumed) = None).
Proof.
  intros [key mic] [s ms ci co ac oc nx act sp mi scr no]. cbn [status].
  intros -> Hk. unfold keyPresent in Hk. cbn in Hk.
  destruct key as [[|c k]|]; try discriminate Hk.
  destruct mic, mi, scr; cbv zeta; cbn [micGranted];
    do 2 (split; [vm_compute; reflexivity|]);
    do 6 (split; [first [reflexivity | repeat split]|]);
    split; intro D; try discriminate D; repeat split.
Qed.

(** ** Payloads that are not played *)

(** X9. A message without interruption whose payload is absent or the empty
    string, or that arrives while no output context is referenced (as after
    [stopSession]), calls nothing in the browser, not even the error log,
    and leaves the cursor and the active set as they were; it raises only
    when its [modelTurn] has no [parts]. *)
Theorem payload_ignored :
  forall (st : State) (clockNow : Q) (m : LiveServerMessage),
    interrupted m = false ->
    readBase64Audio m = Ok None \/ readBase64Audio m = Ok (Some []) \/
    outAudioContextRef st = None ->
    let o := handleMessage clockNow m st in
    effects o = [] /\
    result o = (if malformed m then Throw TypeError else Ok tt) /\
    nextStartTimeRef (final o) = nextStartTimeRef st /\
    activeSourcesRef (final o) = activeSourcesRef st.
Proof.
  intros st clockNow m Hi H. cbv zeta.
  destruct (afterTranscripts_frame m st)
    as (_ & _ & _ & _ & Et & Ea & _).
  destruct (malformed m) eqn:Hm.
  { rewrite (handleMessage_thrown decode decodeAudioData stopRaises)
      by exact Hm.
    repeat split; assumption. }
  assert (Hk : chunk m st = None).
  { unfold Payload.chunk.
    destruct H as [-> | [-> | ->]];
      [reflexivity | destruct (outAudioContextRef st); reflexivity |].
    destruct (readBase64Audio m) as [[p|]|x]; reflexivity. }
  rewrite (handleMessage_eq decode decodeAudioData stopRaises) by exact Hm.
  cbv zeta.
  rewrite handleAudioOutput_eq, chunk_afterTranscripts, Hk by exact Hm.
  rewrite handleInterruptions_eq, Hi. cbv zeta. cbn [effects final result app].
  repeat split; assumption.
Qed.

(** X10. After a message with the interruption signal whose payload can be
    read, the next decodable chunk, arriving at a clock reading that is not
    negative, is started at that clock reading: the cursor reset to 0 is
    clamped up to the clock. The chunk is then the only source of the
    active set and the cursor is the clock reading plus its duration. *)
Theorem chunk_after_interruption :
  forall (st : State) (c1 c2 : Q) (m1 m2 : LiveServerMessage)
         (ctx : ObjRef) (b : AudioBuffer.t),
    outAudioContextRef st = Some ctx ->
    interrupted m1 = true ->
    malformed m1 = false ->
    carries decode decodeAudioData ctx m2 b ->
    interrupted m2 = false ->
    0 <= c2 ->
    let s1 := final (handleMessage c1 m1 st) in
    let o := handleMessage c2 m2 s1 in
    Forall2 Qeq (startTimes (effects o)) [c2] /\
    nextStartTimeRef (final o) == c2 + AudioBuffer.duration b /\
    activeSourcesRef (final o) = [nextObject s1].
Proof.
  intros st c1 c2 m1 m2 ctx b Hc I1 W1 C2 I2 H0. cbv zeta.
  destruct (interruption_cleared c1 m1 st W1 I1) as (A1 & N1).
  destruct (handleMessage_frame decode decodeAudioData stopRaises c1 m1 st)
    as (_ & _ & _ & F4 & _).
  rewrite Hc in F4.
  destruct (handleMessage_schedules decode decodeAudioData stopRaises
              c2 m2 _ ctx b F4 C2 I2) as (E & N & A & _).
  rewrite E, N, A, A1, N1. cbn [startTimes].
  pose proof (Q.max_r 0 c2 H0) as M.
  repeat split; [repeat constructor; exact M | rewrite M; reflexivity].
Qed.

(** ** Start times of a sequence of chunks *)

Lemma run_starts (ctx : ObjRef) (l : list ScheduleCall) :
  Forall (wellFormed decode decodeAudioData ctx) l ->
  forall s,
    outAudioContextRef s = Some ctx ->
    startTimes (effects (run (callEvents l) s))
    = startsFrom (nextStartTimeRef s) l.
Proof.
  induction 1 as [|x r [Hx Hi] Hr IH]; intros s Hc; [reflexivity|].
  cbn [callEvents map]. rewrite run_cons by apply dispatch_ok.
  cbn [effects].
  rewrite startTimes_app, dispatch_OnMessage
    by exact (carries_readable decode decodeAudioData ctx _ _ Hx).
  destruct (handleMessage_schedules decode decodeAudioData stopRaises
              (clock x) (payload x) s ctx (buffer x) Hc Hx Hi)
    as (E & N & _ & O & _).
  fold (callEvents r). rewrite (IH _ O), N, E. reflexivity.
Qed.

Lemma startsFrom_length (l : list ScheduleCall) :
  forall c, List.length (startsFrom c l) = List.length l.
Proof.
  induction l as [|x r IH]; intro c; [reflexivity|].
  cbn. rewrite IH. reflexivity.
Qed.

Lemma startsFrom_bounds (l : list ScheduleCall) :
  forall c i x s,
    nth_error l i = Some x -> nth_error (startsFrom c l) i = Some s ->
    clock x <= s /\ c <= s.
Proof.
  induction l as [|y r IH]; intros c i x s Hx Hs;
    [destruct i; discriminate Hx|].
  destruct i as [|i]; cbn in Hx, Hs.
  - injection Hx as ->. injection Hs as <-.
    split; [apply Q.le_max_r|apply Q.le_max_l].
  - destruct (IH _ i x s Hx Hs) as [H1 H2]. split; [exact H1|].
    pose proof (Q.le_max_l c (clock y)).
    pose proof (duration_nonneg (buffer y)). lra.
Qed.

Lemma startsFrom_chain (l : list ScheduleCall) :
  forall c i x y s s',
    nth_error l i = Some x -> nth_error l (S i) = Some y ->
    nth_error (startsFrom c l) i = Some s ->
    nth_error (startsFrom c l) (S i) = Some s' ->
    s + AudioBuffer.duration (buffer x) <= s' /\
    (clock y <= s + AudioBuffer.duration (buffer x) ->
     s' == s + AudioBuffer.duration (buffer x)).
Proof.
  induction l as [|z r IH]; intros c i x y s s' Hx Hy Hs Hs';
    [destruct i; discriminate Hx|].
  destruct i as [|i]; cbn in Hx, Hy, Hs, Hs'.
  - injection Hx as ->. injection Hs as <-.
    destruct r as [|w r']; [discriminate Hy|].
    cbn in Hy, Hs'. injection Hy as ->. injection Hs' as <-.
    split; [apply Q.le_max_l|]. intro H. apply Q.max_l. exact H.
  - exact (IH _ i x y s s' Hx Hy Hs Hs').
Qed.

(** X11. For a sequence of decodable chunks without interruption: one source
    is started per chunk; no source is started before the clock reading of
    its call nor before the cursor the sequence found; no source is started
    before the previous one ends; and a source whose call arrives no later
    than the end of the previous one starts exactly at that end. *)
Theorem sources_never_overlap :
  forall (st : State) (ctx : ObjRef) (calls : list ScheduleCall),
    outAudioContextRef st = Some ctx ->
    Forall (wellFormed decode decodeAudioData ctx) calls ->
    let starts := startTimes (effects (run (callEvents calls) st)) in
    List.length starts = List.length calls /\
    (forall i c s,
        nth_error calls i = Some c -> nth_error starts i = Some s ->
        clock c <= s /\ nextStartTimeRef st <= s) /\
    (forall i c c' s s',
        nth_error calls i = Some c -> nth_error calls (S i) = Some c' ->
        nth_error starts i = Some s -> nth_error starts (S i) = Some s' ->
        s + AudioBuffer.duration (buffer c) <= s' /\
        (clock c' <= s + AudioBuffer.duration (buffer c) ->
         s' == s + AudioBuffer.duration (buffer c))).
Proof.
  intros st ctx calls Hc Hw. cbv zeta.
  rewrite (run_starts ctx calls Hw st Hc).
  split; [apply startsFrom_length|]. split.
  - intros i c s. apply startsFrom_bounds.
  - intros i c c' s s'. apply startsFrom_chain.
Qed.

(** ** The active set *)

Lemma started_app (l1 l2 : list Effect) :
  started (l1 ++ l2) = started l1 ++ started l2.
Proof.
  induction l1 as [|e r IH]; [reflexivity|].
  destruct e; cbn; rewrite IH; reflexivity.
Qed.

Lemma started_stops (l : list ObjRef) : started (map SourceStop l) = [].
Proof. induction l as [|x r IH]; [reflexivity|exact IH]. Qed.

Lemma set_has_In (x : ObjRef) (l : list ObjRef) :
  set_has x l = true <-> In x l.
Proof.
  unfold set_has. rewrite existsb_exists. split.
  - intros (y & Hy & E). apply Nat.eqb_eq in E. subst y. exact Hy.
  - intro H. exists x. split; [exact H|apply Nat.eqb_refl].
Qed.

Lemma set_add_In (x y : ObjRef) (l : list ObjRef) :
  In x (set_add y l) <-> In x l \/ x = y.
Proof.
  unfold set_add. destruct (set_has y l) eqn:E.
  - apply set_has_In in E. split; [auto|].
    intros [H | ->]; assumption.
  - rewrite in_app_iff. cbn. split; intros [H|H]; auto.
    destruct H as [<-|[]]. auto.
Qed.

Lemma set_add_NoDup (y : ObjRef) (l : list ObjRef) :
  NoDup l -> NoDup (set_add y l).
Proof.
  intro H. unfold set_add. destruct (set_has y l) eqn:E; [exact H|].
  assert (Hn : ~ In y l).
  { intro Hy. apply set_has_In in Hy. rewrite Hy in E. discriminate E. }
  apply NoDup_app; [exact H|repeat constructor; intros []| ].
  intros x Hx [<-|[]]. exact (Hn Hx).
Qed.

Lemma set_delete_fresh (y : ObjRef) (l : list ObjRef) :
  ~ In y l -> set_delete y l = l.
Proof.
  intro H. unfold set_delete. induction l as [|x r IH]; [reflexivity|].
  cbn. destruct (Nat.eqb y x) eqn:E.
  - apply Nat.eqb_eq in E. subst x. contradiction H. left. reflexivity.
  - cbn. rewrite IH; [reflexivity|]. intro Hy. apply H. right. exact Hy.
Qed.

Lemma malformed_chunk (m : LiveServerMessage) (s : State) :
  malformed m = true -> chunk m s = None.
Proof.
  intro Hm. unfold Payload.chunk. rewrite malformed_read, Hm. reflexivity.
Qed.

(** The sources an event starts and stops are those of its handler. *)
Lemma dispatch_calls (e : Event) (s : State) :
  started (effects (dispatch e s)) = started (effects (step e s)) /\
  stopped (effects (dispatch e s)) = stopped (effects (step e s)) /\
  startTimes (effects (dispatch e s)) = startTimes (effects (step e s)).
Proof.
  unfold App.dispatch, try_catch, emit.
  destruct (step e s) as [e1 s1 [[]|x]]; cbn [effects];
    [repeat split|].
  rewrite started_app, stopped_app, startTimes_app, !app_nil_r.
  repeat split.
Qed.

(** What a message does to the sources: the source it starts, the sources it
    stops, the active set and the allocation counter it leaves. *)
Lemma handleMessage_sources (clockNow : Q) (m : LiveServerMessage) (s : State) :
  let o := handleMessage clockNow m s in
  let scheduled :=
    match chunk m s with Some (_, Some _) => true | _ => false end in
  let mid :=
    if scheduled then set_add (nextObject s) (activeSourcesRef s)
    else activeSourcesRef s in
  let cleared := interrupted m && negb (malformed m) in
  started (effects o) = (if scheduled then [nextObject s] else []) /\
  nextObject (final o) = (if scheduled then S (nextObject s) else nextObject s) /\
  stopped (effects o) = (if cleared then mid else []) /\
  activeSourcesRef (final o) = (if cleared then [] else mid).
Proof.
  cbv zeta.
  destruct (afterTranscripts_frame m s)
    as (_ & _ & _ & _ & _ & Ea & _ & _ & _ & En).
  destruct (malformed m) eqn:Hm.
  { rewrite (handleMessage_thrown decode decodeAudioData stopRaises)
      by exact Hm.
    rewrite (malformed_chunk m s Hm), andb_false_r. cbn [effects final].
    repeat split; assumption. }
  rewrite andb_true_r.
  rewrite (handleMessage_eq decode decodeAudioData stopRaises) by exact Hm.
  cbv zeta. cbn [effects final].
  rewrite started_app, stopped_app, handleAudioOutput_eq by exact Hm.
  rewrite chunk_afterTranscripts, handleInterruptions_eq. cbv zeta.
  rewrite Ea, En.
  destruct (chunk m s) as [[ctx [b|]]|]; destruct (interrupted m);
    cbn [effects final started stopped app nextObject activeSourcesRef
         with_activeSourcesRef with_nextStartTimeRef with_nextObject];
    rewrite ?started_stops, ?stopped_stops, ?Ea, ?En; repeat split;
    assumption.
Qed.

(** Events other than a message and an ended source leave the active set,
    start and stop no source and never lower the allocation counter. *)
Lemma dispatch_quiet (e : Event) (s : State) :
  match e with OnMessage _ _ | OnEnded _ => False | _ => True end ->
  activeSourcesRef (final (dispatch e s)) = activeSourcesRef s /\
  started (effects (dispatch e s)) = [] /\
  stopped (effects (dispatch e s)) = [] /\
  (nextObject s <= nextObject (final (dispatch e s)))%nat.
Proof.
  destruct e as [rnd now r t|env| | |clockNow m| | |source]; intro H;
    try contradiction H.
  - unfold App.dispatch, try_catch. cbn [App.step]. rewrite addMessage_eq.
    destruct (blank t); repeat split; cbn; lia.
  - rewrite dispatch_started.
    destruct s as [st ms ci co ac oc nx act sp mi scr no].
    destruct st, env as [[[|c k]|] []]; repeat split; cbn; lia.
  - destruct s as [st ms ci co ac oc nx act sp mi scr no].
    destruct ac, oc, mi, scr; vm_compute; repeat split; lia.
  - destruct s as [st ms ci co [ac|] oc nx act sp mi scr no];
      vm_compute; repeat split; lia.
  - repeat split. cbn. lia.
  - destruct s as [st ms ci co ac oc nx act sp mi scr no].
    destruct ac, oc, mi, scr; vm_compute; repeat split; lia.
Qed.

Lemma dispatch_sources (e : Event) (s : State) (l : list Effect) :
  sourcesInvariant l s ->
  sourcesInvariant (l ++ effects (dispatch e s)) (final (dispatch e s)).
Proof.
  intros (Hd & Hs & Ha & Hk). unfold sourcesInvariant.
  rewrite started_app, stopped_app.
  destruct e as [rnd now r t|env| | |clockNow m| | |source].
  5:{ destruct (dispatch_calls (OnMessage clockNow m) s) as (Cs & Ck & _).
      rewrite Cs, Ck, dispatch_final. cbn [App.step].
      destruct (handleMessage_sources clockNow m s) as (Es & En & Ek & Ea).
      rewrite Es, En, Ek, Ea.
      destruct (match chunk m s with Some (_, Some _) => true | _ => false end);
        destruct (interrupted m && negb (malformed m)); rewrite ?app_nil_r.
      - split; [constructor|]. split; [intros x []|]. split; [intros x []|].
        intros x Hx. apply in_app_iff in Hx. destruct Hx as [Hx|Hx].
        + specialize (Hk x Hx). lia.
        + apply set_add_In in Hx. destruct Hx as [Hx| ->]; [|lia].
          specialize (Ha x Hx). lia.
      - split; [apply set_add_NoDup; exact Hd|]. split; [|split].
        + intros x Hx. apply set_add_In in Hx. destruct Hx as [Hx| ->].
          * destruct (Hs x Hx) as [H1 H2]. split; [|exact H2].
            apply in_app_iff. left. exact H1.
          * split; [apply in_app_iff; right; left; reflexivity|].
            intro Hn. specialize (Hk _ Hn). lia.
        + intros x Hx. apply set_add_In in Hx. destruct Hx as [Hx| ->]; [|lia].
          specialize (Ha x Hx). lia.
        + intros x Hx. specialize (Hk x Hx). lia.
      - split; [constructor|]. split; [intros x []|]. split; [intros x []|].
        intros x Hx. apply in_app_iff in Hx. destruct Hx as [Hx|Hx].
        + exact (Hk x Hx).
        + exact (Ha x Hx).
      - repeat split; try assumption; apply (Hs x H). }
  7:{ unfold App.dispatch, try_catch. cbn [App.step]. unfold onended, modify.
      cbn [effects final activeSourcesRef nextObject with_activeSourcesRef
           started stopped]. rewrite !app_nil_r. unfold set_delete.
      split; [apply NoDup_filter; exact Hd|]. split; [|split].
      - intros x Hx. apply filter_In in Hx. apply Hs. apply Hx.
      - intros x Hx. apply filter_In in Hx. apply Ha. apply Hx.
      - exact Hk. }
  all: match goal with
       | |- context [App.dispatch _ _ _ ?e ?s0] =>
           destruct (dispatch_quiet e s0 I) as (Ea & Es & Ek & En)
       end;
    rewrite Ea, Es, Ek, !app_nil_r;
    (split; [exact Hd|]); (split; [exact Hs|]); split;
    intros x Hx; [specialize (Ha x Hx)|specialize (Hk x Hx)]; lia.
Qed.

Lemma run_sources (es : list Event) :
  forall (s : State) (l : list Effect),
    sourcesInvariant l s ->
    sourcesInvariant (l ++ effects (run es s)) (final (run es s)).
Proof.
  induction es as [|e r IH]; intros s l H.
  - cbn [App.run forEach ret effects final]. rewrite app_nil_r. exact H.
  - rewrite run_cons by apply dispatch_ok. cbn [effects final].
    rewrite app_assoc. apply IH. apply dispatch_sources. exact H.
Qed.

(** X12. After any sequence of events from the initial state, the active
    set holds no source twice, and every source in it has received [start()]
    and has not received [stop()]. *)
Theorem active_sources_started_not_stopped :
  forall es : list Event,
    let o := run es initialState in
    NoDup (activeSourcesRef (final o)) /\
    (forall source,
        In source (activeSourcesRef (final o)) ->
        In source (started (effects o)) /\ ~ In source (stopped (effects o))).
Proof.
  intro es. cbv zeta.
  destruct (run_sources es initialState []) as (Hd & Hs & _).
  - split; [constructor|]. split; [intros x []|]. split; intros x [].
  - split; [exact Hd|exact Hs].
Qed.

(** X13. On a state whose active sources were all allocated before (as in
    every state reached from the initial one), scheduling a decodable chunk
    and then running the ended listener of its source gives back the active
    set as it was; the cursor keeps the advance of the chunk. *)
Theorem ended_source_is_removed :
  forall (st : State) (clockNow : Q) (m : LiveServerMessage)
         (ctx : ObjRef) (b : AudioBuffer.t),
    (forall x, In x (activeSourcesRef st) -> (x < nextObject st)%nat) ->
    outAudioContextRef st = Some ctx ->
    carries decode decodeAudioData ctx m b ->
    interrupted m = false ->
    let o := handleMessage clockNow m st in
    let o' := onended (nextObject st) (final o) in
    activeSourcesRef (final o) = activeSourcesRef st ++ [nextObject st] /\
    activeSourcesRef (final o') = activeSourcesRef st /\
    nextStartTimeRef (final o') = nextStartTimeRef (final o) /\
    effects o' = [].
Proof.
  intros st clockNow m ctx b Hf Hc Hb Hi. cbv zeta.
  destruct (handleMessage_schedules decode decodeAudioData stopRaises
              clockNow m st ctx b Hc Hb Hi) as (_ & _ & A & _).
  assert (Hn : ~ In (nextObject st) (activeSourcesRef st)).
  { intro H. specialize (Hf _ H). lia. }
  assert (Ha : set_add (nextObject st) (activeSourcesRef st)
               = activeSourcesRef st ++ [nextObject st]).
  { unfold set_add. destruct (set_has (nextObject st) (activeSourcesRef st))
      eqn:E; [|reflexivity].
    apply set_has_In in E. contradiction. }
  unfold onended, modify.
  cbn [effects final activeSourcesRef nextStartTimeRef with_activeSourcesRef].
  rewrite A, Ha. repeat split.
  unfold set_delete. rewrite filter_app. cbn [filter].
  rewrite Nat.eqb_refl. cbn [negb]. rewrite app_nil_r.
  apply set_delete_fresh. exact Hn.
Qed.

(** ** Transcript accumulators *)

(** X14. Over any sequence of messages the two accumulators only grow: the
    output text is the text before followed by the output fragments in
    arrival order, the input text is the text before followed by the input
    fragments of the messages that carry no output fragment, where a
    fragment without [text] counts as the nine characters [undefined];
    neither turn-complete nor an interruption nor an audio payload, readable
    or not, clears or shortens them. *)
Theorem transcripts_accumulate :
  forall (ms : list (Q * LiveServerMessage)) (st : State),
    let s' := final (run (messageEvents ms) st) in
    currentOutputText s' = currentOutputText st ++ outputFragments ms /\
    currentInputText s' = currentInputText st ++ inputFragments ms.
Proof.
  induction ms as [|[c m] r IH]; intro st; cbv zeta.
  - cbn. rewrite !app_nil_r. split; reflexivity.
  - cbn [messageEvents map fst snd]. rewrite run_cons by apply dispatch_ok.
    cbn [final]. rewrite dispatch_final. cbn [App.step].
    fold (messageEvents r).
    destruct (IH (final (handleMessage c m st))) as [Eo Ei].
    destruct (handleMessage_texts decode decodeAudioData stopRaises c m st)
      as [To Ti].
    rewrite Eo, Ei, To, Ti. cbn [outputFragments inputFragments].
    rewrite <- !app_assoc. split; reflexivity.
Qed.

(** ** The button *)

(** X15. While the status is [ERROR] the button is enabled and its handler
    is [startSession], which the guard refuses: any number of clicks, in any
    environment, calls nothing and changes nothing, so the page offers no
    way out of [ERROR]. While the status is [CONNECTING] the button is
    disabled and clicks are not delivered. *)
Theorem button_inert_in_error :
  forall (envs : list StartEnv) (st : State),
    status st = ERROR \/ status st = CONNECTING ->
    View.buttonDisabled st = ConnectionStatus_eqb (status st) CONNECTING /\
    View.clicks envs st = {| effects := []; final := st; result := Ok tt |}.
Proof.
  intros envs st H. split; [reflexivity|].
  assert (C : forall env,
             View.click env st
             = {| effects := []; final := st; result := Ok tt |}).
  { intro env. unfold View.click, View.buttonDisabled, bind, get.
    destruct H as [H|H]; rewrite H; cbn [ConnectionStatus_eqb ret].
    - rewrite startSession_guard; [reflexivity|].
      rewrite H. discriminate.
    - reflexivity. }
  induction envs as [|env r IH]; [reflexivity|].
  cbn [View.clicks]. unfold bind. rewrite C, IH. reflexivity.
Qed.

(** ** Start times are never negative *)

Lemma dispatch_cursor_quiet (e : Event) (s : State) :
  match e with OnMessage _ _ => False | _ => True end ->
  nextStartTimeRef (final (dispatch e s)) = nextStartTimeRef s /\
  startTimes (effects (dispatch e s)) = [].
Proof.
  destruct e as [rnd now r t|env| | |clockNow m| | |source]; intro H;
    try contradiction H.
  - unfold App.dispatch, try_catch. cbn [App.step]. rewrite addMessage_eq.
    destruct (blank t); split; reflexivity.
  - rewrite dispatch_started.
    destruct s as [st ms ci co ac oc nx act sp mi scr no].
    destruct st, env as [[[|c k]|] []]; split; reflexivity.
  - destruct s as [st ms ci co ac oc nx act sp mi scr no].
    destruct ac, oc, mi, scr; split; reflexivity.
  - destruct s as [st ms ci co [ac|] oc nx act sp mi scr no];
      split; reflexivity.
  - split; reflexivity.
  - destruct s as [st ms ci co ac oc nx act sp mi scr no].
    destruct ac, oc, mi, scr; split; reflexivity.
  - split; reflexivity.
Qed.

Lemma handleMessage_cursor_nonneg (clockNow : Q) (m : LiveServerMessage)
    (s : State) :
  0 <= nextStartTimeRef s ->
  0 <= nextStartTimeRef (final (handleMessage clockNow m s)) /\
  Forall (fun t => 0 <= t) (startTimes (effects (handleMessage clockNow m s))).
Proof.
  intro H.
  destruct (afterTranscripts_frame m s) as (_ & _ & _ & _ & Et & _).
  destruct (malformed m) eqn:Hm.
  { rewrite (handleMessage_thrown decode decodeAudioData stopRaises)
      by exact Hm.
    cbn [effects final]. rewrite Et. split; [exact H|constructor]. }
  rewrite (handleMessage_eq decode decodeAudioData stopRaises) by exact Hm.
  cbv zeta. cbn [effects final]. rewrite startTimes_app.
  rewrite handleAudioOutput_eq, handleInterruptions_eq by exact Hm.
  cbv zeta. rewrite Et.
  pose proof (Q.le_max_l (nextStartTimeRef s) clockNow) as M.
  destruct (chunk m (afterTranscripts m s)) as [[ctx [b|]]|];
    destruct (interrupted m);
    cbn [effects final startTimes app nextStartTimeRef
         with_activeSourcesRef with_nextStartTimeRef with_nextObject];
    rewrite ?startTimes_stops, ?Et;
    try pose proof (duration_nonneg b);
    (split; [lra | repeat (apply Forall_cons; [cbv beta; lra|]);
                   apply Forall_nil]).
Qed.

Lemma run_cursor_nonneg (es : list Event) :
  forall s,
    0 <= nextStartTimeRef s ->
    0 <= nextStartTimeRef (final (run es s)) /\
    Forall (fun t => 0 <= t) (startTimes (effects (run es s))).
Proof.
  induction es as [|e r IH]; intros s H; [split; [exact H|constructor]|].
  rewrite run_cons by apply dispatch_ok. cbn [effects final].
  rewrite startTimes_app.
  assert (D : 0 <= nextStartTimeRef (final (dispatch e s)) /\
              Forall (fun t => 0 <= t) (startTimes (effects (dispatch e s)))).
  { destruct e as [rnd now ro t|env| | |clockNow m| | |source];
      try (match goal with
           | |- context [App.dispatch _ _ _ ?e ?s0] =>
               destruct (dispatch_cursor_quiet e s0 I) as [Ec Es]
           end; rewrite Ec, Es; split; [exact H|constructor]).
    destruct (dispatch_calls (OnMessage clockNow m) s) as (_ & _ & Ct).
    rewrite Ct, dispatch_final. cbn [App.step].
    apply handleMessage_cursor_nonneg. exact H. }
  destruct D as [Dc Ds]. destruct (IH _ Dc) as [Rc Rs].
  split; [exact Rc|]. apply Forall_app. split; assumption.
Qed.

(** X16. After any sequence of events from the initial state, with any clock
    readings, the cursor is not negative and no source has been started at a
    negative time. *)
Theorem start_times_not_negative :
  forall es : list Event,
    let o := run es initialState in
    0 <= nextStartTimeRef (final o) /\
    Forall (fun t => 0 <= t) (startTimes (effects o)).
Proof.
  intro es. apply run_cursor_nonneg. cbn. lra.
Qed.

End Coverage.

(** * Further scenarios *)

(** The empty string as API key. *)
Lemma startSession_without_key_witness :
  let env := {| API_KEY := Some []; micGranted := true |} in
  status initialState = DISCONNECTED /\
  keyPresent env = false /\
  startSession env initialState =
    {| effects := [ConsoleError "Failed to start session:"];
       final := with_status ERROR initialState;
       result := Ok tt |}.
Proof.
  cbv zeta. split; [reflexivity|]. split; [reflexivity|].
  apply startSession_without_key; reflexivity.
Defined.

(** The microphone refused on the first start. *)
Lemma startSession_microphone_refused_witness :
  let o := startSession Sample.denied initialState in
  effects o = [NewAudioContext 0%nat 16000; NewAudioContext 1%nat 24000;
               GetUserMedia; ConsoleError "Failed to start session:"] /\
  result o = Ok tt /\
  status (final o) = ERROR /\
  audioContextRef (final o) = Some 0%nat /\
  outAudioContextRef (final o) = Some 1%nat /\
  micStreamRef (final o) = None /\
  sessionPromiseRef (final o) = None /\
  scriptProcessorRef (final o) = None.
Proof.
  apply (startSession_microphone_refused Sample.denied initialState);
    reflexivity.
Defined.

(** The first start with key and microphone. *)
Lemma startSession_connecting_witness :
  let o := startSession Sample.granted initialState in
  effects o = [NewAudioContext 0%nat 16000; NewAudioContext 1%nat 24000;
               GetUserMedia; LiveConnect 3%nat] /\
  result o = Ok tt /\
  status (final o) = CONNECTING /\
  audioContextRef (final o) = Some 0%nat /\
  outAudioContextRef (final o) = Some 1%nat /\
  micStreamRef (final o) = Some 2%nat /\
  sessionPromiseRef (final o) = Some 3%nat /\
  scriptProcessorRef (final o) = None.
Proof.
  apply (startSession_connecting Sample.granted initialState); reflexivity.
Defined.

(** The open callback on the connecting session raises nothing; after
    [stopSession] it raises. A message whose [modelTurn] has no [parts]
    raises, a message with a payload does not. *)
Lemma handlers_that_raise_witness :
  result (onopen (final (startSession Sample.granted initialState))) = Ok tt /\
  result (onopen (final (stopSession Sample.connected))) = Throw TypeError /\
  result (handleMessage Sample.decode Sample.decodeAudioData Sample.stopRaises
            2 Sample.interruptedWithoutParts Sample.playing)
    = Throw TypeError /\
  result (handleMessage Sample.decode Sample.decodeAudioData Sample.stopRaises
            2 (audioMessage (Sample.pcm 2)) Sample.playing) = Ok tt.
Proof.
  destruct (handlers_that_raise Sample.decode Sample.decodeAudioData
              Sample.stopRaises) as (_ & H & M & L).
  split; [apply H; discriminate|]. split; [|split].
  - destruct (L Sample.granted Sample.connected) as [E _].
    rewrite E. reflexivity.
  - rewrite M. reflexivity.
  - rewrite M. reflexivity.
Defined.

(** A session started, opened, fed one chunk and stopped. *)
Lemma no_context_leak_witness :
  let es := [StartSession Sample.granted; OnOpen;
             OnMessage 1 (audioMessage (Sample.pcm 2)); StopSession] in
  let o := run Sample.decode Sample.decodeAudioData Sample.stopRaises
             es initialState in
  status (final o) = DISCONNECTED /\
  openContexts [] (effects o) = [].
Proof.
  cbv zeta. split; [evaluate|].
  apply (no_context_leak Sample.decode Sample.decodeAudioData
           Sample.stopRaises). evaluate.
Defined.

(** The first start, stopped while the microphone is being requested, and
    the microphone then granted. *)
Lemma stop_during_microphone_request_witness :
  let o := startSessionAround Sample.decode Sample.decodeAudioData
             Sample.stopRaises Sample.granted [StopSession] initialState in
  effects o = [NewAudioContext 0%nat 16000; NewAudioContext 1%nat 24000;
               GetUserMedia; ContextClose 0%nat; ContextClose 1%nat;
               LiveConnect 3%nat] /\
  result o = Ok tt /\
  status (final o) = DISCONNECTED /\
  micStreamRef (final o) = Some 2%nat /\
  sessionPromiseRef (final o) = Some 3%nat /\
  audioContextRef (final o) = None /\
  outAudioContextRef (final o) = None /\
  result (onopen (final o)) = Throw TypeError.
Proof.
  cbv zeta.
  destruct (stop_during_microphone_request Sample.decode
              Sample.decodeAudioData Sample.stopRaises Sample.granted
              initialState eq_refl eq_refl)
    as (_ & E & _ & _ & _ & _ & A & O & G & _).
  destruct (G eq_refl) as (_ & S & M & P & X).
  rewrite E. cbn [effects final result].
  split; [reflexivity|]. split; [reflexivity|]. split; [exact S|].
  split; [exact M|]. split; [exact P|]. split; [exact A|].
  split; [exact O|exact X].
Defined.

(** A chunk that arrives after [stopSession]. *)
Lemma payload_ignored_witness :
  let st := final (stopSession Sample.playing) in
  let o := handleMessage Sample.decode Sample.decodeAudioData Sample.stopRaises
             5 (audioMessage (Sample.pcm 2)) st in
  outAudioContextRef st = None /\
  effects o = [] /\ result o = Ok tt /\
  nextStartTimeRef (final o) = nextStartTimeRef st /\
  activeSourcesRef (final o) = activeSourcesRef st.
Proof.
  cbv zeta. split; [reflexivity|].
  apply (payload_ignored Sample.decode Sample.decodeAudioData
           Sample.stopRaises (final (stopSession Sample.playing)) 5
           (audioMessage (Sample.pcm 2)) eq_refl).
  right. right. reflexivity.
Defined.

(** Two chunks playing, an interruption at clock 2, a new chunk at clock 3. *)
Lemma chunk_after_interruption_witness :
  let s1 := final (handleMessage Sample.decode Sample.decodeAudioData
                     Sample.stopRaises 2 interruptedMessage Sample.playing) in
  let o := handleMessage Sample.decode Sample.decodeAudioData Sample.stopRaises
             3 (audioMessage (Sample.pcm 2)) s1 in
  Forall2 Qeq (startTimes (effects o)) [3] /\
  nextStartTimeRef (final o) == 3 + (2 # 24000) /\
  activeSourcesRef (final o) = [nextObject s1].
Proof.
  apply (chunk_after_interruption Sample.decode Sample.decodeAudioData
           Sample.stopRaises Sample.playing 2 3 interruptedMessage
           (audioMessage (Sample.pcm 2)) 1%nat
           {| AudioBuffer.length := 2; AudioBuffer.sampleRate := 24000 |});
    first [ reflexivity
          | exists (Sample.pcm 2); repeat split; evaluate
          | evaluate ].
Defined.

(** Two chunks back to back and a third after a pause. *)
Lemma sources_never_overlap_witness :
  let calls := [Sample.call 1 2; Sample.call 1 2; Sample.call 3 2] in
  let starts :=
    startTimes
      (effects (run Sample.decode Sample.decodeAudioData Sample.stopRaises
                  (callEvents calls) Sample.connected)) in
  outAudioContextRef Sample.connected = Some 1%nat /\
  Forall (wellFormed Sample.decode Sample.decodeAudioData 1%nat) calls /\
  List.length starts = 3%nat /\
  (forall i c s,
      nth_error calls i = Some c -> nth_error starts i = Some s ->
      clock c <= s /\ nextStartTimeRef Sample.connected <= s) /\
  (forall i c c' s s',
      nth_error calls i = Some c -> nth_error calls (S i) = Some c' ->
      nth_error starts i = Some s -> nth_error starts (S i) = Some s' ->
      s + AudioBuffer.duration (buffer c) <= s' /\
      (clock c' <= s + AudioBuffer.duration (buffer c) ->
       s' == s + AudioBuffer.duration (buffer c))).
Proof.
  cbv zeta.
  assert (W : Forall (wellFormed Sample.decode Sample.decodeAudioData 1%nat)
                [Sample.call 1 2; Sample.call 1 2; Sample.call 3 2]).
  { constructor; [carried (Sample.pcm 2)|].
    constructor; [carried (Sample.pcm 2)|].
    constructor; [carried (Sample.pcm 2)|constructor]. }
  split; [reflexivity|]. split; [exact W|].
  apply (sources_never_overlap Sample.decode Sample.decodeAudioData
           Sample.stopRaises Sample.connected 1%nat _ eq_refl W).
Defined.

(** Two chunks scheduled on a connected session. *)
Lemma active_sources_started_not_stopped_witness :
  let es := [StartSession Sample.granted; OnOpen;
             OnMessage 1 (audioMessage (Sample.pcm 2));
             OnMessage 1 (audioMessage (Sample.pcm 2))] in
  let o := run Sample.decode Sample.decodeAudioData Sample.stopRaises
             es initialState in
  activeSourcesRef (final o) = [6%nat; 7%nat] /\
  NoDup (activeSourcesRef (final o)) /\
  (forall source,
      In source (activeSourcesRef (final o)) ->
      In source (started (effects o)) /\ ~ In source (stopped (effects o))).
Proof.
  cbv zeta. split; [evaluate|].
  apply (active_sources_started_not_stopped Sample.decode
           Sample.decodeAudioData Sample.stopRaises).
Defined.

(** A third chunk on the session with two playing, and its end. *)
Lemma ended_source_is_removed_witness :
  let st := Sample.playing in
  let o := handleMessage Sample.decode Sample.decodeAudioData Sample.stopRaises
             (3 # 2) (audioMessage (Sample.pcm 2)) st in
  let o' := onended (nextObject st) (final o) in
  activeSourcesRef (final o) = activeSourcesRef st ++ [nextObject st] /\
  activeSourcesRef (final o') = activeSourcesRef st /\
  nextStartTimeRef (final o') = nextStartTimeRef (final o) /\
  effects o' = [].
Proof.
  apply (ended_source_is_removed Sample.decode Sample.decodeAudioData
           Sample.stopRaises Sample.playing (3 # 2)
           (audioMessage (Sample.pcm 2)) 1%nat
           {| AudioBuffer.length := 2; AudioBuffer.sampleRate := 24000 |}).
  - intros x [<-|[<-|[]]]; cbn; lia.
  - reflexivity.
  - exists (Sample.pcm 2); repeat split; evaluate.
  - reflexivity.
Defined.

(** An output fragment without [text] followed by the fragment ["Hi"] and
    an input fragment ["OK"], on the connected session. *)
Lemma transcripts_accumulate_witness :
  let ms := [(1, Sample.fragmentWithoutText); (2, Sample.bothFragments);
             (3, Sample.inputFragment)] in
  let s' := final (run Sample.decode Sample.decodeAudioData Sample.stopRaises
                     (messageEvents ms) Sample.connected) in
  currentOutputText s' = undefinedText ++ [72%N; 105%N] /\
  currentInputText s' = [79%N; 75%N].
Proof.
  cbv zeta.
  destruct (transcripts_accumulate Sample.decode Sample.decodeAudioData
              Sample.stopRaises
              [(1, Sample.fragmentWithoutText); (2, Sample.bothFragments);
               (3, Sample.inputFragment)] Sample.connected) as [Ho Hi].
  rewrite Ho, Hi. split; reflexivity.
Defined.

(** Two clicks after the microphone has been refused. *)
Lemma button_inert_in_error_witness :
  let st := final (startSession Sample.denied initialState) in
  status st = ERROR /\
  View.buttonDisabled st = false /\
  View.clicks [Sample.granted; Sample.granted] st
    = {| effects := []; final := st; result := Ok tt |}.
Proof.
  cbv zeta. split; [reflexivity|].
  apply (button_inert_in_error [Sample.granted; Sample.granted]
           (final (startSession Sample.denied initialState))).
  left. reflexivity.
Defined.
